(** * Delay and Probability Discounting task (task.js): the titration core

    A shallow embedding of the functions of [task.js] that carry the
    titration procedure: the settings object built by [prepareSettings],
    the reward sampler [getRewardValue], the bracket update
    [updateParameters], the trial callbacks and the conditional functions
    that decide which trials of the timeline run.

    Conventions of the embedding.
    - Amounts of money (yen) are [Z]; trial counters are [nat].
    - [Math.random()] is an input [u : Q] of the function that calls it;
      the arithmetic of [getRewardValue] is carried out on exact
      rationals, [Math.round x] being [floor (x + 1/2)].
    - A callback that mutates the shared [settings] object takes the
      settings and returns the new settings; a property access on
      [undefined] (a [TypeError] in JavaScript) is [None].
    - [console.log] output is returned as a list of lines. *)

From Stdlib Require Import ZArith QArith Qround Lia Lqa Ascii.
From stdpp Require Import gmap strings list fin_maps pretty.

Local Open Scope Z_scope.

(** ** JavaScript primitives used by the task *)

Module JS.

(** [Math.round]: the nearest integer, halves rounded towards +infinity. *)
Definition Math_round (x : Q) : Z := Qfloor (x + (1 # 2))%Q.

(** The text a template literal gives for a number-or-undefined value. *)
Definition show (v : option Z) : string :=
  match v with
  | Some z => pretty z
  | None => "undefined"
  end.

(** [String(v)] for the [response] of a button trial: the index of the
    button, or [null] when the trial ended without one. *)
Definition String (v : option Z) : string :=
  match v with
  | Some z => pretty z
  | None => "null"
  end.

End JS.

(** ** Data model *)

(** The object kept for a delay or probability condition
    ([t1]..[t5], [p1]..[p5] in [prepareSettings]).  [temporal_delay] is
    present on the [temporal_delay] objects only and [probability] on the
    [probability_delay] ones; [ip = None] is [ip: undefined]. *)
Record Parameters := mkParameters {
  name : string;
  type : string;
  temporal_delay : option Z;
  probability : option Z;
  count : nat;
  tmin : Z;
  tmax : Z;
  bmin : Z;
  bmax : Z;
  ip : option Z
}.

(** Field assignments [parameters.f = v]. *)
Definition set_tmin (v : Z) (p : Parameters) : Parameters :=
  mkParameters (name p) (type p) (temporal_delay p) (probability p) (count p)
    v (tmax p) (bmin p) (bmax p) (ip p).
Definition set_tmax (v : Z) (p : Parameters) : Parameters :=
  mkParameters (name p) (type p) (temporal_delay p) (probability p) (count p)
    (tmin p) v (bmin p) (bmax p) (ip p).
Definition set_bmin (v : Z) (p : Parameters) : Parameters :=
  mkParameters (name p) (type p) (temporal_delay p) (probability p) (count p)
    (tmin p) (tmax p) v (bmax p) (ip p).
Definition set_bmax (v : Z) (p : Parameters) : Parameters :=
  mkParameters (name p) (type p) (temporal_delay p) (probability p) (count p)
    (tmin p) (tmax p) (bmin p) v (ip p).
Definition set_ip (v : Z) (p : Parameters) : Parameters :=
  mkParameters (name p) (type p) (temporal_delay p) (probability p) (count p)
    (tmin p) (tmax p) (bmin p) (bmax p) (Some v).
Definition set_count (v : nat) (p : Parameters) : Parameters :=
  mkParameters (name p) (type p) (temporal_delay p) (probability p) v
    (tmin p) (tmax p) (bmin p) (bmax p) (ip p).

(** The four bracket fields of a condition, in the order
    [(tmin, tmax, bmin, bmax)]. *)
Definition brackets (p : Parameters) : Z * Z * Z * Z :=
  (tmin p, tmax p, bmin p, bmax p).

(** The object kept for the distractor task ([d0]): a name, a type and a
    counter, and no bracket. *)
Record DistractorParameters := mkDistractorParameters {
  d_name : string;
  d_type : string;
  d_count : nat
}.

(** A value of the [settings.parameters] map. *)
Inductive TrialParameters :=
| Condition (p : Parameters)
| Distractor (d : DistractorParameters).

Definition tp_name (e : TrialParameters) : string :=
  match e with Condition p => name p | Distractor d => d_name d end.
Definition tp_type (e : TrialParameters) : string :=
  match e with Condition p => type p | Distractor d => d_type d end.
(** [e.ip], which is [undefined] on an object without the field. *)
Definition tp_ip (e : TrialParameters) : option Z :=
  match e with Condition p => ip p | Distractor _ => None end.
(** [e.temporal_delay] and [e.probability], likewise. *)
Definition tp_temporal_delay (e : TrialParameters) : option Z :=
  match e with Condition p => temporal_delay p | Distractor _ => None end.
Definition tp_probability (e : TrialParameters) : option Z :=
  match e with Condition p => probability p | Distractor _ => None end.
(** [e.count++] *)
Definition tp_count_incr (e : TrialParameters) : TrialParameters :=
  match e with
  | Condition p => Condition (set_count (S (count p)) p)
  | Distractor d => Distractor (mkDistractorParameters (d_name d) (d_type d) (S (d_count d)))
  end.
(** The bracket state of a map value, when it has one. *)
Definition tp_state (e : TrialParameters) : option (Z * Z * Z * Z * option Z) :=
  match e with
  | Condition p => Some (brackets p, ip p)
  | Distractor _ => None
  end.

(** Objects that can be handed to [getRewardValue]: anything with a
    [tmax] and a [bmax] property. *)
Class Ranged (A : Type) := { range_tmax : A → Z; range_bmax : A → Z }.

#[export] Instance Parameters_Ranged : Ranged Parameters :=
  {| range_tmax := tmax; range_bmax := bmax |}.

(** The literal [{ tmax: ..., bmax: ... }] of [handleOnDistractorStart]. *)
Record DummyRange := mkDummyRange { dummy_tmax : Z; dummy_bmax : Z }.

#[export] Instance DummyRange_Ranged : Ranged DummyRange :=
  {| range_tmax := dummy_tmax; range_bmax := dummy_bmax |}.

(** ** The reward sampler and the bracket update *)

(** [getRewardValue(parameters, step)], with [u] the value of
    [Math.random()]. *)
Definition getRewardValue `{Ranged A} (parameters : A) (step : Z) (u : Q) : Z :=
  let tmax := (inject_Z (range_tmax parameters) / inject_Z step)%Q in
  let bmax := (inject_Z (range_bmax parameters) / inject_Z step)%Q in
  JS.Math_round (u * (tmax - bmax) + bmax)%Q * step.

(** The line written to the console for a response that is neither ['A']
    nor ['B']. *)
Definition invalid_response_message (response : string) : string :=
  "不正なレスポンスが与えられました。(response: " +:+ response +:+ ")".

(** The test that closes [updateParameters]: the offered reward becomes
    the indifference point when the bracket is narrow enough. *)
Definition store_ip (reword threshold : Z) (parameters : Parameters) : Parameters :=
  if decide (tmax parameters - bmax parameters ≤ threshold)
  then set_ip reword parameters
  else parameters.

(** [updateParameters(response, reword, parameters, standard, threshold)].
    The result is the updated object with the console output; the
    [default] case returns before the indifference point test. *)
Definition updateParameters (response : string) (reword : Z)
    (parameters : Parameters) (standard threshold : Z)
  : Parameters * list string :=
  if decide (response = "A") then
    let parameters :=
      if decide (reword < bmin parameters) then
        set_bmin reword (set_bmax 0 parameters)
      else if decide (reword ≤ tmin parameters) then
        set_tmin reword (set_tmax (tmin parameters) parameters)
      else
        set_tmax reword parameters in
    (store_ip reword threshold parameters, [])
  else if decide (response = "B") then
    let parameters :=
      if decide (tmin parameters < reword) then
        set_tmin reword (set_tmax standard parameters)
      else if decide (bmin parameters < reword) then
        set_bmin reword (set_bmax (bmin parameters) parameters)
      else
        set_bmax reword parameters in
    (store_ip reword threshold parameters, [])
  else
    (parameters, [invalid_response_message response]).

(** ** Settings *)

(** The two stimulus templates of the user settings.  The [values] object
    is passed as its three properties: [var], [std] and [t] (or [p]). *)
Record Stimuli := mkStimuli {
  temporalDelay : Z → Z → option Z → string;
  probabilityDelay : Z → Z → option Z → string
}.

(** The object returned by [getUserDefinedSettings]. *)
Module User.
Record t := mk {
  posttrialDelay : Z;
  distractorStart : nat;
  standard : Z;
  step : Z;
  temporalDelays : list Z;
  probabilities : list Z;
  maximumTrialCount : nat;
  stimuli : Stimuli
}.
End User.

(** [settings.variables]: the values of the most recent trial. *)
Module variables.
Record t := mk {
  count : nat;
  reword : Z;
  stimulus : option string;
  number_of_ips : nat
}.
End variables.

(** The settings object shared by every trial of the session. *)
Module Settings.
Record t := mk {
  posttrialDelay : Z;
  distractorStart : nat;
  standard : Z;
  step : Z;
  maximumTrialCount : nat;
  stimuli : Stimuli;
  variables : variables.t;
  threshold : Z;
  parameters : gmap string TrialParameters
}.

Definition set_variables (v : variables.t) (s : t) : t :=
  mk (posttrialDelay s) (distractorStart s) (standard s) (step s)
     (maximumTrialCount s) (stimuli s) v (threshold s) (parameters s).
Definition set_parameters (m : gmap string TrialParameters) (s : t) : t :=
  mk (posttrialDelay s) (distractorStart s) (standard s) (step s)
     (maximumTrialCount s) (stimuli s) (variables s) (threshold s) m.
End Settings.

(** Assignments to the properties of [settings.variables]. *)
Definition set_count_var (v : nat) (s : Settings.t) : Settings.t :=
  let vs := Settings.variables s in
  Settings.set_variables
    (variables.mk v (variables.reword vs) (variables.stimulus vs)
       (variables.number_of_ips vs)) s.
Definition set_reword (v : Z) (s : Settings.t) : Settings.t :=
  let vs := Settings.variables s in
  Settings.set_variables
    (variables.mk (variables.count vs) v (variables.stimulus vs)
       (variables.number_of_ips vs)) s.
Definition set_stimulus (v : option string) (s : Settings.t) : Settings.t :=
  let vs := Settings.variables s in
  Settings.set_variables
    (variables.mk (variables.count vs) (variables.reword vs) v
       (variables.number_of_ips vs)) s.
Definition set_number_of_ips (v : nat) (s : Settings.t) : Settings.t :=
  let vs := Settings.variables s in
  Settings.set_variables
    (variables.mk (variables.count vs) (variables.reword vs)
       (variables.stimulus vs) v) s.

(** [settings.parameters[key] = value] *)
Definition set_parameter (key : string) (value : TrialParameters)
    (s : Settings.t) : Settings.t :=
  Settings.set_parameters (<[key := value]> (Settings.parameters s)) s.

(** [Object.keys] and [Object.values] of the parameters map.  The
    enumeration order of the map stands for the insertion order of the
    object; every use below shuffles or samples the result. *)
Definition Object_keys (m : gmap string TrialParameters) : list string :=
  (map_to_list m).*1.
Definition Object_values (m : gmap string TrialParameters) : list TrialParameters :=
  (map_to_list m).*2.

(** The stimulus texts of [getUserDefinedSettings]. *)
Definition stimuli_temporalDelay (var std : Z) (t : option Z) : string :=
  "(A) " +:+ pretty var +:+ " 円をいますぐに受け取る。 (B) " +:+ pretty std
  +:+ " 円を " +:+ JS.show t +:+ " 日以内に受け取る。".
Definition stimuli_probabilityDelay (var std : Z) (p : option Z) : string :=
  "(A) " +:+ pretty var +:+ " 円を確実に受け取る。 (B) " +:+ pretty std
  +:+ " 円を " +:+ JS.show p +:+ "% の確率で受け取る。".

Definition getUserDefinedSettings : User.t :=
  User.mk 500 70 1000 50 [0; 2; 30; 180; 365] [100; 90; 75; 50; 25] 30
    (mkStimuli stimuli_temporalDelay stimuli_probabilityDelay).

(** The objects that [prepareSettings] creates for the delay at index
    [idx], for the probability at index [idx], and for the distractor. *)
Definition temporalParameters (standard : Z) (idx : nat) (val : Z) : Parameters :=
  mkParameters ("t" +:+ pretty (idx + 1)%nat) "temporal_delay" (Some val) None
    0 standard standard 0 0 None.
Definition probabilityParameters (standard : Z) (idx : nat) (val : Z) : Parameters :=
  mkParameters ("p" +:+ pretty (idx + 1)%nat) "probability_delay" None (Some val)
    0 standard standard 0 0 None.
Definition distractorParameters : DistractorParameters :=
  mkDistractorParameters "d0" "distractor" 0.

Definition trialParameters (user : User.t) : list TrialParameters :=
  imap (λ idx val, Condition (temporalParameters (User.standard user) idx val))
    (User.temporalDelays user)
  ++ imap (λ idx val, Condition (probabilityParameters (User.standard user) idx val))
    (User.probabilities user)
  ++ [Distractor distractorParameters].

(** [prepareSettings()], as a function of the user settings it reads; the
    source's call is [prepareSettings getUserDefinedSettings]. *)
Definition prepareSettings (user : User.t) : Settings.t :=
  let parametersMap :=
    foldl (λ m trial, <[tp_name trial := trial]> m) ∅ (trialParameters user) in
  Settings.mk (User.posttrialDelay user) (User.distractorStart user)
    (User.standard user) (User.step user) (User.maximumTrialCount user)
    (User.stimuli user)
    (variables.mk 0 0 (Some "") 0)
    (User.step user)
    parametersMap.

(** [getStimulousString(settings, trialName)]: [None] when the trial name
    is not in the map, [Some None] for the [undefined] of the last
    branch. *)
Definition getStimulousString (settings : Settings.t) (trialName : string)
  : option (option string) :=
  parameters ← Settings.parameters settings !! trialName;
  let var := variables.reword (Settings.variables settings) in
  let std := Settings.standard settings in
  if decide (tp_type parameters = "temporal_delay") then
    Some (Some (temporalDelay (Settings.stimuli settings) var std
                  (tp_temporal_delay parameters)))
  else if decide (tp_type parameters = "probability_delay") then
    Some (Some (probabilityDelay (Settings.stimuli settings) var std
                  (tp_probability parameters)))
  else Some None.

(** ** Trial data and callbacks *)

(** The data object of a trial: the properties given in the block
    definition, the response recorded by the button plugin, and the
    properties added by [saveData]. *)
Module Data.
Record t := mk {
  name : string;
  tiral_name : string;
  response : option Z;
  reword : option Z;
  choices : option (option string);
  trial_parameters : option TrialParameters
}.
End Data.

(** [saveData(data, settings, parameters)]; an argument that the caller
    leaves out is [None]. *)
Definition saveData (data : Data.t) (settings : option Settings.t)
    (parameters : option TrialParameters) : Data.t :=
  let data :=
    match settings with
    | Some settings =>
        Data.mk (Data.name data) (Data.tiral_name data) (Data.response data)
          (Some (variables.reword (Settings.variables settings)))
          (Some (variables.stimulus (Settings.variables settings)))
          (Data.trial_parameters data)
    | None => data
    end in
  match parameters with
  | Some parameters =>
      Data.mk (Data.name data) (Data.tiral_name data) (Data.response data)
        (Data.reword data) (Data.choices data) (Some parameters)
  | None => data
  end.

(** [handleOnDelaiedDiscountingStart], for the timeline variable
    [tiral_name = trialName] and the draw [u] of [Math.random()].  The
    object read from the map is the one that is mutated.  A [d0] object
    has no bracket to draw from (the reward would be [NaN]); that case is
    outside the embedding and is [None] like a missing name. *)
Definition handleOnDelaiedDiscountingStart (settings : Settings.t)
    (trialName : string) (u : Q) : option Settings.t :=
  match Settings.parameters settings !! trialName with
  | Some (Condition parameters) =>
      let settings :=
        set_count_var (S (variables.count (Settings.variables settings))) settings in
      let parameters := set_count (S (count parameters)) parameters in
      let settings := set_parameter trialName (Condition parameters) settings in
      let settings :=
        set_reword (getRewardValue parameters (Settings.step settings) u) settings in
      stimulus ← getStimulousString settings trialName;
      Some (set_stimulus stimulus settings)
  | _ => None
  end.

(** The response label computed at the head of
    [handleOnDelaiedDiscountingFinish]. *)
Definition responseLabel (response : option Z) : string :=
  if decide (response = Some 0) then "A"
  else if decide (response = Some 1) then "B"
  else JS.String response.

(** [handleOnDelaiedDiscountingFinish(data)]: the new settings, the data
    object as saved, and what was written to the console.  As in the
    start callback, the object of the trial is a condition; a [d0] object
    has no bounds to update and is [None] like a missing name. *)
Definition handleOnDelaiedDiscountingFinish (settings : Settings.t)
    (data : Data.t) : option (Settings.t * Data.t * list string) :=
  let response := responseLabel (Data.response data) in
  let value := variables.reword (Settings.variables settings) in
  match Settings.parameters settings !! Data.tiral_name data with
  | Some (Condition parameters) =>
      let standard := Settings.standard settings in
      let threshold := Settings.threshold settings in
      let '(parameters, console) :=
        updateParameters response value parameters standard threshold in
      let settings :=
        set_parameter (Data.tiral_name data) (Condition parameters) settings in
      let settings :=
        if decide (ip parameters ≠ None) then
          set_number_of_ips
            (S (variables.number_of_ips (Settings.variables settings))) settings
        else settings in
      Some (settings, saveData data (Some settings) (Some (Condition parameters)),
            console)
  | _ => None
  end.

(** Modelled from the spec: [jsPsych.randomization.sampleWithReplacement],
    a function of the jsPsych library that [task.js] calls and does not
    contain, in its use [sampleWithReplacement(arr, 1)[0]]: one element of
    [arr] chosen at random, here the one at the index that the random
    source [pick] designates; nothing when [arr] is empty. *)
Definition sampleOne {A} (arr : list A) (pick : nat) : option A :=
  arr !! (pick mod length arr)%nat.

(** The type of condition shown by a distractor after a trial of type
    [lastType]. *)
Definition distractorTrialType (lastType : string) : string :=
  if decide (lastType = "temporal_delay") then "probability_delay"
  else if decide (lastType = "probability_delay") then "temporal_delay"
  else lastType.

(** [handleOnDistractorStart], for the timeline variable
    [tiral_name = lastTrialName], the random choice [pick] of the
    condition to show and the draw [u] of [Math.random()]. *)
Definition handleOnDistractorStart (settings : Settings.t)
    (lastTrialName : string) (pick : nat) (u : Q) : option Settings.t :=
  last ← Settings.parameters settings !! lastTrialName;
  let trialType := distractorTrialType (tp_type last) in
  chosen ← sampleOne
    (filter (λ parameters, tp_type parameters = trialType)
       (Object_values (Settings.parameters settings))) pick;
  let trialName := tp_name chosen in
  d0 ← Settings.parameters settings !! "d0";
  let settings := set_parameter "d0" (tp_count_incr d0) settings in
  let settings :=
    set_reword
      (getRewardValue (mkDummyRange (Settings.standard settings) 0)
         (Settings.step settings) u) settings in
  stimulus ← getStimulousString settings trialName;
  Some (set_stimulus stimulus settings).

(** ** The timeline of the task *)

(** The [conditional_function] of [skipIfIpDetermined]. *)
Definition skipIfIpDetermined_conditional (settings : Settings.t)
    (trialName : string) : option bool :=
  parameters ← Settings.parameters settings !! trialName;
  Some (bool_decide (tp_ip parameters = None)).

(** The [conditional_function] of [distractorTrial]. *)
Definition distractorTrial_conditional (settings : Settings.t) : bool :=
  bool_decide (Settings.distractorStart settings
               ≤ variables.count (Settings.variables settings))%nat.

(** What the world supplies while one entry of the timeline runs: the two
    random draws for the rewards, the random choice of the distractor
    condition, and the buttons pressed. *)
Record Inputs := mkInputs {
  u_reward : Q;
  answer : option Z;
  pick_distractor : nat;
  u_dummy : Q;
  distractor_answer : option Z
}.

(** One [delaiedDiscountingTrial]: [on_start], the response, [on_finish]. *)
Definition delaiedDiscountingTrial (settings : Settings.t) (trialName : string)
    (inp : Inputs) : option (Settings.t * Data.t * list string) :=
  settings ← handleOnDelaiedDiscountingStart settings trialName (u_reward inp);
  handleOnDelaiedDiscountingFinish settings
    (Data.mk "delaied_discounting" trialName (answer inp) None None None).

(** The trial inside [distractorTrial]: [on_start], the response,
    [on_finish] (a [saveData] without parameters). *)
Definition distractorTrial (settings : Settings.t) (lastTrialName : string)
    (inp : Inputs) : option (Settings.t * Data.t) :=
  settings ← handleOnDistractorStart settings lastTrialName
    (pick_distractor inp) (u_dummy inp);
  Some (settings,
        saveData (Data.mk "distractor" "d0" (distractor_answer inp) None None None)
          (Some settings) None).

(** One entry of the timeline of [doDelaiedDiscountingTask]:
    [skipIfIpDetermined(delaiedDiscountingTrial(), distractorTrial())].
    The trial runner (jsPsych) is not part of [task.js]; as the
    specification has it, it runs the entries one after the other,
    evaluates the conditional function of a timeline when it reaches it,
    and calls [on_start] before and [on_finish] after each trial.  The
    result carries the data objects of the trials that ran, in order, and
    the console output. *)
Definition timelineEntry (settings : Settings.t) (trialName : string)
    (inp : Inputs) : option (Settings.t * list Data.t * list string) :=
  run ← skipIfIpDetermined_conditional settings trialName;
  if run : bool then
    '(settings, data, console) ← delaiedDiscountingTrial settings trialName inp;
    if distractorTrial_conditional settings then
      '(settings, ddata) ← distractorTrial settings trialName inp;
      Some (settings, [data; ddata], console)
    else Some (settings, [data], console)
  else Some (settings, [], []).

(** The whole timeline of [doDelaiedDiscountingTask] over a trial
    sequence, each entry with its inputs. *)
Fixpoint doDelaiedDiscountingTask (settings : Settings.t)
    (trialSequence : list (string * Inputs))
  : option (Settings.t * list Data.t * list string) :=
  match trialSequence with
  | [] => Some (settings, [], [])
  | (trialName, inp) :: rest =>
      '(settings, data, console) ← timelineEntry settings trialName inp;
      '(settings, data', console') ← doDelaiedDiscountingTask settings rest;
      Some (settings, data ++ data', console ++ console')
  end.

(** ** The trial sequence *)

(** No two neighbours of [l] are equal for [equalityTest]. *)
Fixpoint noRepeats {A} (equalityTest : A → A → bool) (l : list A) : bool :=
  match l with
  | a :: (b :: _) as rest => negb (equalityTest a b) && noRepeats equalityTest rest
  | _ => true
  end.

(** Modelled from the spec: [jsPsych.randomization.repeat], a function of
    the jsPsych library that [task.js] calls and does not contain.  The
    result holds every element of [array] [repetitions] times, in an order
    chosen at random. *)
Definition randomization_repeat {A} (array : list A) (repetitions : nat)
    (out : list A) : Prop :=
  out ≡ₚ array ≫= replicate repetitions.

(** Modelled from the spec: [jsPsych.randomization.shuffleNoRepeats], a
    function of the jsPsych library that [task.js] calls and does not
    contain.  The result is a random permutation of [arr] without equal
    neighbours; when [arr] has no such permutation, it is a permutation
    placed as well as can be. *)
Definition randomization_shuffleNoRepeats {A} (arr : list A)
    (equalityTest : A → A → bool) (out : list A) : Prop :=
  out ≡ₚ arr ∧
  (noRepeats equalityTest out = true
   ∨ ∀ l, l ≡ₚ arr → noRepeats equalityTest l = false).

(** [prepareTrialSequence(settings)], as the relation between the
    settings and the sequences it can return.  An element
    [{tiral_name, settings}] of the sequence is represented by its
    [tiral_name]: the [settings] property of every element refers to the
    one settings object of the session. *)
Definition prepareTrialSequence (settings : Settings.t) (out : list string) : Prop :=
  let trialNames :=
    filter (λ key, key ≠ "d0") (Object_keys (Settings.parameters settings)) in
  ∃ repeatedArray,
    randomization_repeat trialNames (Settings.maximumTrialCount settings)
      repeatedArray
    ∧ randomization_shuffleNoRepeats repeatedArray
        (λ a b, bool_decide (a = b)) out.

(** The number of entries of a sequence that refer to [trialName]. *)
Definition entriesOf (trialName : string) (sequence : list string) : nat :=
  length (filter (λ key, key = trialName) sequence).

(** ** Runs of one condition *)

(** The state in which [prepareSettings] creates a condition. *)
Definition initialBracket (standard : Z) (p : Parameters) : Prop :=
  brackets p = (standard, standard, 0, 0) ∧ ip p = None.

(** The ordering of the four bounds. *)
Definition ordered (p : Parameters) : Prop :=
  bmax p ≤ bmin p ∧ bmin p ≤ tmin p ∧ tmin p ≤ tmax p.

(** The width of the bracket, which [updateParameters] compares with the
    threshold. *)
Definition width (p : Parameters) : Z := tmax p - bmax p.

Definition validResponse (response : string) : Prop :=
  response = "A" ∨ response = "B".

(** The states of a condition after each of a series of calls
    [updateParameters(response, reword, parameters, standard, threshold)]. *)
Fixpoint updates (standard threshold : Z) (calls : list (string * Z))
    (parameters : Parameters) : list Parameters :=
  match calls with
  | [] => []
  | (response, reword) :: calls =>
      let parameters :=
        (updateParameters response reword parameters standard threshold).1 in
      parameters :: updates standard threshold calls parameters
  end.

(** Every call of the series offers a reward within the bracket
    [[bmax, tmax]] that the condition has when the call is made. *)
Fixpoint offersInBracket (standard threshold : Z) (calls : list (string * Z))
    (parameters : Parameters) : Prop :=
  match calls with
  | [] => True
  | (response, reword) :: calls =>
      bmax parameters ≤ reword ≤ tmax parameters
      ∧ offersInBracket standard threshold calls
          (updateParameters response reword parameters standard threshold).1
  end.

(** The states of a condition over a series of titration trials: each
    trial offers the reward that [getRewardValue] draws from the current
    state with the next value of [Math.random()], and the subject answers
    by [policy]. *)
Fixpoint titration (standard step threshold : Z) (policy : Z → string)
    (draws : list Q) (parameters : Parameters) : list Parameters :=
  match draws with
  | [] => []
  | u :: draws =>
      let reword := getRewardValue parameters step u in
      let parameters :=
        (updateParameters (policy reword) reword parameters standard threshold).1 in
      parameters :: titration standard step threshold policy draws parameters
  end.

(** A value of [Math.random()], taken in the closed unit interval. *)
Definition unitDraw (u : Q) : Prop := (0 <= u)%Q ∧ (u <= 1)%Q.

(** A subject for whom the standard option is worth [value]: the offered
    amount is taken (['A']) when it is larger and the standard (['B'])
    when it is smaller. *)
Definition consistentPolicy (value : Z) (policy : Z → string) : Prop :=
  ∀ x, (value < x → policy x = "A") ∧ (x < value → policy x = "B")
       ∧ validResponse (policy x).

Definition thresholdPolicy (value : Z) (x : Z) : string :=
  if decide (value < x) then "A" else "B".

(** The interleaving rule in the words of the specification: a distractor
    follows when the trial count has reached the start value and is
    even. *)
Definition oneInTwoRule (distractorStart count : nat) : Prop :=
  (distractorStart ≤ count)%nat ∧ Nat.Even count.

(** Whether the data of a timeline entry hold a distractor trial. *)
Definition distractorRan (data : list Data.t) : bool :=
  bool_decide (Exists (λ d, Data.name d = "distractor") data).

(** What a series of titration trials keeps true of a condition, for a
    subject who values the standard option at [value]: the bounds are
    ordered multiples of the step between 0 and the standard amount, the
    lower pair has not passed [value] and the upper pair has not gone
    below it. *)
Definition titrationInvariant (standard step value : Z) (p : Parameters) : Prop :=
  ordered p ∧ 0 ≤ bmax p ∧ tmax p ≤ standard
  ∧ (step | tmin p) ∧ (step | tmax p) ∧ (step | bmin p) ∧ (step | bmax p)
  ∧ bmin p ≤ Z.max value 0 ∧ Z.min value standard ≤ tmin p.

(** ** The payoff trial and the summary *)

(** [handleOnPayoffStart(trial, settings)], for the results [results] that
    [jsPsych.data.get().values()] holds when the payoff trial starts and
    the random choice [pick] of one of them.  The results of the other
    blocks of the timeline have no [name] equal to
    ['delaied_discounting'] and are filtered out like those of the
    distractor trials.  A selected result without [reword] or [choices]
    would store [undefined] in [settings.variables]; the embedding does
    not represent that and gives [None]. *)
Definition handleOnPayoffStart (settings : Settings.t) (results : list Data.t)
    (pick : nat) : option Settings.t :=
  let trialResults :=
    filter (λ result, Data.name result = "delaied_discounting") results in
  selectedResult ← sampleOne trialResults pick;
  reword ← Data.reword selectedResult;
  choices ← Data.choices selectedResult;
  Some (set_stimulus choices (set_reword reword settings)).

(** The object stored in [data.summary] by [saveSummary]. *)
Module Summary.
Record t := mk {
  total_trial_count : nat;
  number_of_ips : nat;
  trial_parameters : gmap string TrialParameters
}.
End Summary.

(** The [on_finish] of [saveSummary(settings)]. *)
Definition saveSummary (settings : Settings.t) : Summary.t :=
  Summary.mk (variables.count (Settings.variables settings))
    (variables.number_of_ips (Settings.variables settings))
    (Settings.parameters settings).

(** ** Notions used to state properties of a session *)

(** The conditions of a parameters map whose indifference point is
    determined. *)
Definition determined (m : gmap string TrialParameters)
  : gmap string TrialParameters :=
  filter (λ kv, tp_ip kv.2 ≠ None) m.

(** A condition as a session keeps it, for the standard amount and the
    step of the settings: the four bounds are ordered multiples of the
    step between 0 and the standard amount, and so is the indifference
    point when it is determined. *)
Definition soundCondition (standard step : Z) (p : Parameters) : Prop :=
  ordered p ∧ 0 ≤ bmax p ∧ tmax p ≤ standard
  ∧ (step | tmin p) ∧ (step | tmax p) ∧ (step | bmin p) ∧ (step | bmax p)
  ∧ (∀ v, ip p = Some v → 0 ≤ v ≤ standard ∧ (step | v)).

(** The draws of the inputs of a trial sequence are values of
    [Math.random()]. *)
Definition unitInputs (trialSequence : list (string * Inputs)) : Prop :=
  Forall (λ entry, unitDraw (u_reward entry.2) ∧ unitDraw (u_dummy entry.2))
    trialSequence.

(** What never changes in an object of the parameters map: its name, its
    type and whether it has a bracket. *)
Definition tp_shape (e : TrialParameters) : string * string * bool :=
  (tp_name e, tp_type e,
   match e with Condition _ => true | Distractor _ => false end).

(** The shape of the parameters map that [prepareSettings] builds from
    at least one delay and one probability: every object is stored under
    its name, the conditions are of the two types, [d0] is there, and
    each type has a condition. *)
Definition wellFormed (m : gmap string TrialParameters) : Prop :=
  (∀ key e, m !! key = Some e → tp_name e = key)
  ∧ (∀ key p, m !! key = Some (Condition p) →
       type p = "temporal_delay" ∨ type p = "probability_delay")
  ∧ is_Some (m !! "d0")
  ∧ (∃ key p, m !! key = Some (Condition p) ∧ type p = "temporal_delay")
  ∧ (∃ key p, m !! key = Some (Condition p) ∧ type p = "probability_delay").

(** The titration and distractor results of a data log. *)
Definition titrationResults (data : list Data.t) : list Data.t :=
  filter (λ d, Data.name d = "delaied_discounting") data.
Definition distractorResults (data : list Data.t) : list Data.t :=
  filter (λ d, Data.name d = "distractor") data.

(** ** A small session for the examples *)

(** Settings with one delay, one probability, two repetitions and
    distractors from the second trial on; one set of inputs for an entry;
    and a trial sequence that [prepareTrialSequence] can return. *)
Definition smallUser : User.t :=
  User.mk 500 2 1000 50 [0] [100] 2
    (mkStimuli stimuli_temporalDelay stimuli_probabilityDelay).
Definition exampleInputs : Inputs :=
  mkInputs (11 # 20) (Some 0) 3 (1 # 4) (Some 1).
Definition smallSequence : list (string * Inputs) :=
  [("t1", exampleInputs); ("p1", exampleInputs);
   ("t1", exampleInputs); ("p1", exampleInputs)].

(** * Properties *)

(** ** The bracket update, branch by branch *)

Section UpdateParameters.

Variables (reword standard threshold : Z) (p : Parameters).

Lemma brackets_store_ip q : brackets (store_ip reword threshold q) = brackets q.
Proof. unfold store_ip. by case_decide. Qed.

Lemma tmin_store_ip q : tmin (store_ip reword threshold q) = tmin q.
Proof. unfold store_ip. by case_decide. Qed.
Lemma tmax_store_ip q : tmax (store_ip reword threshold q) = tmax q.
Proof. unfold store_ip. by case_decide. Qed.
Lemma bmin_store_ip q : bmin (store_ip reword threshold q) = bmin q.
Proof. unfold store_ip. by case_decide. Qed.
Lemma bmax_store_ip q : bmax (store_ip reword threshold q) = bmax q.
Proof. unfold store_ip. by case_decide. Qed.

Lemma store_ip_narrow q :
  width q ≤ threshold → ip (store_ip reword threshold q) = Some reword.
Proof. unfold store_ip, width. intros. by rewrite decide_True. Qed.

Lemma store_ip_wide q :
  threshold < width q → ip (store_ip reword threshold q) = ip q.
Proof. unfold store_ip, width. intros. rewrite decide_False; [done | lia]. Qed.

(** The object after a call with response ['A'] or ['B'] is the object
    after the chosen branch, passed through the closing test. *)
Lemma updateParameters_A :
  (updateParameters "A" reword p standard threshold).1
  = store_ip reword threshold
      (if decide (reword < bmin p) then set_bmin reword (set_bmax 0 p)
       else if decide (reword ≤ tmin p) then set_tmin reword (set_tmax (tmin p) p)
       else set_tmax reword p).
Proof. reflexivity. Qed.

Lemma updateParameters_B :
  (updateParameters "B" reword p standard threshold).1
  = store_ip reword threshold
      (if decide (tmin p < reword) then set_tmin reword (set_tmax standard p)
       else if decide (bmin p < reword) then set_bmin reword (set_bmax (bmin p) p)
       else set_bmax reword p).
Proof. reflexivity. Qed.

Lemma updateParameters_default response :
  ¬ validResponse response →
  updateParameters response reword p standard threshold
  = (p, [invalid_response_message response]).
Proof.
  unfold validResponse, updateParameters. intros Hr.
  repeat case_decide; tauto.
Qed.

End UpdateParameters.

(** Case analysis on the branch that a call of [updateParameters] takes,
    leaving one goal per branch over the four bounds. *)
Ltac branches :=
  rewrite ?updateParameters_A, ?updateParameters_B;
  repeat case_decide;
  rewrite ?brackets_store_ip;
  unfold brackets, width;
  rewrite ?tmin_store_ip, ?tmax_store_ip, ?bmin_store_ip, ?bmax_store_ip;
  cbn [tmin tmax bmin bmax set_tmin set_tmax set_bmin set_bmax].

(** C1. With response ['A'] (the offered amount is chosen): when
    [reword < bmin], [bmax] becomes 0 and [bmin] the reward; otherwise
    when [reword <= tmin], [tmax] becomes the old [tmin] and [tmin] the
    reward; otherwise [tmax] becomes the reward.  With response ['B'] (the
    standard is chosen): when [tmin < reword], [tmax] becomes [standard]
    and [tmin] the reward; otherwise when [bmin < reword], [bmax] becomes
    the old [bmin] and [bmin] the reward; otherwise [bmax] becomes the
    reward.  In each case the bounds not named keep their value, and the
    other properties of the object, [ip] apart, are never touched. *)
Theorem updateParameters_six_branches
    (response : string) (reword : Z) (p : Parameters) (standard threshold : Z) :
  let p' := (updateParameters response reword p standard threshold).1 in
  (response = "A" → reword < bmin p →
     brackets p' = (tmin p, tmax p, reword, 0))
  ∧ (response = "A" → bmin p ≤ reword → reword ≤ tmin p →
     brackets p' = (reword, tmin p, bmin p, bmax p))
  ∧ (response = "A" → bmin p ≤ reword → tmin p < reword →
     brackets p' = (tmin p, reword, bmin p, bmax p))
  ∧ (response = "B" → tmin p < reword →
     brackets p' = (reword, standard, bmin p, bmax p))
  ∧ (response = "B" → reword ≤ tmin p → bmin p < reword →
     brackets p' = (tmin p, tmax p, reword, bmin p))
  ∧ (response = "B" → reword ≤ tmin p → reword ≤ bmin p →
     brackets p' = (tmin p, tmax p, bmin p, reword))
  ∧ (name p', type p', temporal_delay p', probability p', count p')
    = (name p, type p, temporal_delay p, probability p, count p).
Proof.
  cbv zeta. repeat split; try (intros ->; intros; branches; (done || lia)).
  unfold updateParameters, store_ip. by repeat case_decide.
Qed.

(** The six branches on the condition [t1] of the default settings. *)
Lemma updateParameters_six_branches_witness :
  brackets (updateParameters "A" (-50) (temporalParameters 1000 0 0) 1000 50).1
    = (1000, 1000, -50, 0)
  ∧ brackets (updateParameters "A" 500 (temporalParameters 1000 0 0) 1000 50).1
    = (500, 1000, 0, 0)
  ∧ brackets (updateParameters "A" 1200 (temporalParameters 1000 0 0) 1000 50).1
    = (1000, 1200, 0, 0)
  ∧ brackets (updateParameters "B" 1200 (temporalParameters 1000 0 0) 1000 50).1
    = (1200, 1000, 0, 0)
  ∧ brackets (updateParameters "B" 500 (temporalParameters 1000 0 0) 1000 50).1
    = (1000, 1000, 500, 0)
  ∧ brackets (updateParameters "B" 0 (temporalParameters 1000 0 0) 1000 50).1
    = (1000, 1000, 0, 0).
Proof.
  repeat apply conj.
  - destruct (updateParameters_six_branches "A" (-50) (temporalParameters 1000 0 0) 1000 50)
      as (H & _). apply H; [reflexivity | simpl; lia].
  - destruct (updateParameters_six_branches "A" 500 (temporalParameters 1000 0 0) 1000 50)
      as (_ & H & _). apply H; [reflexivity | simpl; lia | simpl; lia].
  - destruct (updateParameters_six_branches "A" 1200 (temporalParameters 1000 0 0) 1000 50)
      as (_ & _ & H & _). apply H; [reflexivity | simpl; lia | simpl; lia].
  - destruct (updateParameters_six_branches "B" 1200 (temporalParameters 1000 0 0) 1000 50)
      as (_ & _ & _ & H & _). apply H; [reflexivity | simpl; lia].
  - destruct (updateParameters_six_branches "B" 500 (temporalParameters 1000 0 0) 1000 50)
      as (_ & _ & _ & _ & H & _). apply H; [reflexivity | simpl; lia | simpl; lia].
  - destruct (updateParameters_six_branches "B" 0 (temporalParameters 1000 0 0) 1000 50)
      as (_ & _ & _ & _ & _ & H & _). apply H; [reflexivity | simpl; lia | simpl; lia].
Defined.

(** ** The indifference point test *)

Lemma width_store_ip reword threshold q :
  width (store_ip reword threshold q) = width q.
Proof. unfold store_ip. by case_decide. Qed.

(** C3. After a call with response ['A'] or ['B'], whichever branch was
    taken: when the updated bounds satisfy [tmax - bmax <= threshold] the
    indifference point is the offered reward, and when
    [tmax - bmax > threshold] it is what it was before the call.  The
    threshold of the settings is the configured step. *)
Theorem updateParameters_ip_iff_narrow
    (user : User.t) (response : string) (reword : Z) (p : Parameters)
    (standard threshold : Z) :
  validResponse response →
  let p' := (updateParameters response reword p standard threshold).1 in
  Settings.threshold (prepareSettings user) = User.step user
  ∧ (tmax p' - bmax p' ≤ threshold → ip p' = Some reword)
  ∧ (threshold < tmax p' - bmax p' → ip p' = ip p).
Proof.
  intros Hvalid p'. split; [reflexivity|].
  fold (width p'). subst p'.
  destruct Hvalid as [-> | ->];
    rewrite ?updateParameters_A, ?updateParameters_B, width_store_ip;
    (split; intros Hw;
     [ by apply store_ip_narrow
     | rewrite store_ip_wide by done; by repeat case_decide ]).
Qed.

(** On the first trial of [t1], the answer ['A'] to an offer of 500
    leaves a bracket of width 1000 and no indifference point; on a
    condition narrowed to [[950, 1000]], any answer fixes it. *)
Lemma updateParameters_ip_iff_narrow_witness :
  ip (updateParameters "A" 500 (temporalParameters 1000 0 0) 1000 50).1 = None
  ∧ ip (updateParameters "B" 950
          (mkParameters "t1" "temporal_delay" (Some 0) None 7 1000 1000 950 950 None)
          1000 50).1 = Some 950.
Proof.
  split.
  - destruct (updateParameters_ip_iff_narrow getUserDefinedSettings "A" 500
                (temporalParameters 1000 0 0) 1000 50) as (_ & _ & H);
      [by left | apply H; vm_compute; reflexivity].
  - destruct (updateParameters_ip_iff_narrow getUserDefinedSettings "B" 950
                (mkParameters "t1" "temporal_delay" (Some 0) None 7 1000 1000 950 950 None)
                1000 50) as (_ & H & _);
      [by right | apply H; vm_compute; discriminate].
Defined.

(** ** Responses that are neither ['A'] nor ['B'] *)

(** The decimal text of a number is not a letter. *)
Lemma pretty_N_go_not_letter (x : N) (s : string) (c : ascii) :
  (∀ d, pretty_N_char d ≠ c) → s ≠ String c "" →
  pretty_N_go x s ≠ String c "".
Proof.
  intros Hc. revert s. induction (N.lt_wf_0 x) as [x _ IH]; intros s Hs.
  assert (x = 0 ∨ 0 < x)%N as [-> | Hx] by lia.
  - by rewrite pretty_N_go_0.
  - rewrite pretty_N_go_step by done. apply IH.
    + by apply N.div_lt.
    + intros [= Hd _]. by apply Hc in Hd.
Qed.

Lemma pretty_Z_not_letter (z : Z) (c : ascii) :
  (∀ d, pretty_N_char d ≠ c) → c ≠ "-"%char → pretty z ≠ String c "".
Proof.
  intros Hc Hdash. destruct z as [| x | x]; unfold pretty, pretty_Z.
  - intros [= Hd]. by apply (Hc 0%N).
  - unfold pretty, pretty_positive, pretty, pretty_N.
    rewrite decide_False by done. by apply pretty_N_go_not_letter.
  - intros [= Hd _]. by apply Hdash.
Qed.

Lemma responseLabel_invalid (response : option Z) :
  response ≠ Some 0 → response ≠ Some 1 →
  responseLabel response = JS.String response
  ∧ ¬ validResponse (JS.String response).
Proof.
  intros H0 H1. unfold responseLabel. rewrite !decide_False by done.
  split; [done|].
  assert (∀ d, pretty_N_char d ≠ "A"%char) as HA
    by (intros d; unfold pretty_N_char; by repeat case_match).
  assert (∀ d, pretty_N_char d ≠ "B"%char) as HB
    by (intros d; unfold pretty_N_char; by repeat case_match).
  destruct response as [z|]; simpl.
  - intros [H | H]; revert H; by apply pretty_Z_not_letter.
  - by intros [? | ?].
Qed.

(** C6. For a response that is neither ['A'] nor ['B'],
    [updateParameters] returns the object as it received it (the four
    bounds, the indifference point and all the rest), the closing test is
    not applied, and one line naming the response is written to the
    console. *)
Theorem updateParameters_invalid_response
    (response : string) (reword : Z) (p : Parameters) (standard threshold : Z) :
  response ≠ "A" → response ≠ "B" →
  updateParameters response reword p standard threshold
  = (p, [invalid_response_message response])
  ∧ brackets (updateParameters response reword p standard threshold).1 = brackets p
  ∧ ip (updateParameters response reword p standard threshold).1 = ip p.
Proof.
  intros HA HB.
  by rewrite updateParameters_default by (intros [? | ?]; done).
Qed.

(** The response ['C'] on a condition whose bracket is already narrow:
    nothing is stored, not even the indifference point that the closing
    test would store. *)
Lemma updateParameters_invalid_response_witness :
  updateParameters "C" 950
    (mkParameters "t1" "temporal_delay" (Some 0) None 7 1000 1000 950 950 None)
    1000 50
  = (mkParameters "t1" "temporal_delay" (Some 0) None 7 1000 1000 950 950 None,
     [invalid_response_message "C"]).
Proof.
  apply (updateParameters_invalid_response "C" 950
           (mkParameters "t1" "temporal_delay" (Some 0) None 7 1000 1000 950 950 None)
           1000 50); discriminate.
Defined.

(** The same at the level of the trial callback: when the button plugin
    reports anything but the index 0 or 1, the parameters of every
    condition stay as they are and the diagnostic is written. *)
Lemma handleOnDelaiedDiscountingFinish_invalid
    (settings : Settings.t) (data : Data.t) (p : Parameters) :
  Data.response data ≠ Some 0 → Data.response data ≠ Some 1 →
  Settings.parameters settings !! Data.tiral_name data = Some (Condition p) →
  ∃ settings' data',
    handleOnDelaiedDiscountingFinish settings data
    = Some (settings', data',
            [invalid_response_message (JS.String (Data.response data))])
    ∧ Settings.parameters settings' = Settings.parameters settings.
Proof.
  intros H0 H1 Hp.
  destruct (responseLabel_invalid _ H0 H1) as [Hlabel Hinvalid].
  unfold handleOnDelaiedDiscountingFinish.
  rewrite Hp, Hlabel, updateParameters_default by done.
  eexists _, _. split; [reflexivity|].
  case_decide; cbn; by rewrite insert_id.
Qed.

(** ** The ordering of the bounds *)

Lemma ordered_store_ip reword threshold q :
  ordered (store_ip reword threshold q) ↔ ordered q.
Proof. unfold store_ip. by case_decide. Qed.

(** One call keeps the bounds ordered when the offer lies between 0 and
    the standard amount. *)
Lemma updateParameters_ordered response reword p standard threshold :
  0 ≤ reword ≤ standard → ordered p →
  ordered (updateParameters response reword p standard threshold).1.
Proof.
  intros Hr (H1 & H2 & H3). unfold updateParameters.
  repeat case_decide; cbn [fst]; rewrite ?ordered_store_ip;
    unfold ordered; cbn; lia.
Qed.

(** One call keeps [tmin <= tmax <= standard] when the offer lies in the
    current bracket. *)
Lemma updateParameters_tmax_le_standard response reword p standard threshold :
  bmax p ≤ reword ≤ tmax p → tmin p ≤ tmax p ≤ standard →
  let p' := (updateParameters response reword p standard threshold).1 in
  tmin p' ≤ tmax p' ≤ standard.
Proof.
  intros Hr Hp. unfold updateParameters, store_ip.
  repeat case_decide; cbn; lia.
Qed.

(** C2 (as amended). For a condition created with
    [tmin = tmax = standard] and [bmin = bmax = 0], where the standard
    amount is not negative: after any series of calls of
    [updateParameters] whose offered rewards lie between 0 and the
    standard amount (as every reward drawn from the bracket does), the
    ordering [bmax <= bmin <= tmin <= tmax] holds, initially and after
    every call. *)
Theorem updates_ordered
    (standard threshold : Z) (calls : list (string * Z)) (p : Parameters) :
  0 ≤ standard →
  initialBracket standard p →
  Forall (λ call, 0 ≤ call.2 ≤ standard) calls →
  Forall ordered (p :: updates standard threshold calls p).
Proof.
  intros Hstd [Hb _] Hcalls.
  assert (ordered p) as Hp.
  { unfold ordered. injection Hb as -> -> -> ->. lia. }
  clear Hb. constructor; [done|].
  induction Hcalls as [| [response reword] calls Hcall _ IH] in p, Hp |- *;
    cbn [updates]; constructor.
  - by apply updateParameters_ordered.
  - apply IH. by apply updateParameters_ordered.
Qed.

(** Three trials of the condition [t1] of the default settings. *)
Lemma updates_ordered_witness :
  Forall ordered
    (temporalParameters 1000 0 0
     :: updates 1000 50 [("A", 500); ("B", 800); ("B", 300)]
          (temporalParameters 1000 0 0)).
Proof.
  apply (updates_ordered 1000 50 [("A", 500); ("B", 800); ("B", 300)]
           (temporalParameters 1000 0 0)).
  - lia.
  - split; reflexivity.
  - repeat constructor; simpl; lia.
Defined.

(** C2 (as stated) fails when the rewards are not restricted: on a
    condition in its initial state with the standard 1000, the valid
    response ['B'] to an offer of 1050 takes the branch [tmin < reword],
    which stores [tmax = 1000] and [tmin = 1050]; the valid response
    ['A'] to an offer of -50 takes the branch [reword < bmin], which
    stores [bmax = 0] and [bmin = -50]; and with a negative standard
    amount the initial state itself has [tmin < bmin]. *)
Lemma updates_ordered_counterexample :
  initialBracket 1000 (temporalParameters 1000 0 0)
  ∧ validResponse "B"
  ∧ brackets (updateParameters "B" 1050 (temporalParameters 1000 0 0) 1000 50).1
    = (1050, 1000, 0, 0)
  ∧ ¬ Forall ordered
        (updates 1000 50 [("B", 1050)] (temporalParameters 1000 0 0))
  ∧ validResponse "A"
  ∧ brackets (updateParameters "A" (-50) (temporalParameters 1000 0 0) 1000 50).1
    = (1000, 1000, -50, 0)
  ∧ ¬ Forall ordered
        (updates 1000 50 [("A", -50)] (temporalParameters 1000 0 0))
  ∧ initialBracket (-1000) (temporalParameters (-1000) 0 0)
  ∧ ¬ ordered (temporalParameters (-1000) 0 0).
Proof.
  split; [by split|]. split; [by right|]. split; [reflexivity|].
  split.
  { intros H. apply Forall_cons_1 in H as [(_ & _ & H) _].
    vm_compute in H. by apply H. }
  split; [by left|]. split; [reflexivity|].
  split.
  { intros H. apply Forall_cons_1 in H as [(H & _) _].
    vm_compute in H. by apply H. }
  split; [by split|].
  intros (_ & H & _). vm_compute in H. by apply H.
Qed.

(** C10. For a condition created with [tmin = tmax = standard] and
    [bmin = bmax = 0], when every call of [updateParameters] offers a
    reward within the bracket [[bmax, tmax]] of that moment, then
    [tmax <= standard] after every call, and with it [tmin <= tmax]: the
    branch of response ['B'] that stores [tmax = standard] and
    [tmin = reword] is given a reward that is at most the old [tmax]. *)
Theorem updates_tmax_le_standard
    (standard threshold : Z) (calls : list (string * Z)) (p : Parameters) :
  initialBracket standard p →
  offersInBracket standard threshold calls p →
  Forall (λ q, tmin q ≤ tmax q ∧ tmax q ≤ standard)
    (updates standard threshold calls p).
Proof.
  intros [Hb _] Hcalls.
  assert (tmin p ≤ tmax p ≤ standard) as Hp.
  { injection Hb as -> -> _ _. lia. }
  clear Hb.
  induction calls as [| [response reword] calls IH] in p, Hp, Hcalls |- *;
    cbn [updates]; [constructor|].
  destruct Hcalls as [Hr Hcalls].
  pose proof (updateParameters_tmax_le_standard response reword p standard
                threshold Hr Hp) as Hp'.
  constructor; [cbv zeta in Hp'; lia|].
  by apply IH.
Qed.

(** Offers 500, 800 and 900 to [t1], each inside the bracket of its
    moment; the second takes the branch that stores [tmax = standard]. *)
Lemma updates_tmax_le_standard_witness :
  Forall (λ q, tmin q ≤ tmax q ∧ tmax q ≤ 1000)
    (updates 1000 50 [("A", 500); ("B", 800); ("A", 900)]
       (temporalParameters 1000 0 0)).
Proof.
  apply (updates_tmax_le_standard 1000 50 [("A", 500); ("B", 800); ("A", 900)]
           (temporalParameters 1000 0 0)).
  - split; reflexivity.
  - vm_compute. repeat split; discriminate.
Defined.

(** Offers within the bracket of the moment lie between 0 and the
    standard amount, so that they keep the bounds ordered. *)
Lemma updates_ordered_in_bracket
    (standard threshold : Z) (calls : list (string * Z)) (p : Parameters) :
  0 ≤ standard →
  initialBracket standard p →
  offersInBracket standard threshold calls p →
  Forall ordered (updates standard threshold calls p).
Proof.
  intros Hstd [Hb _] Hcalls.
  assert (ordered p ∧ 0 ≤ bmax p ∧ tmax p ≤ standard) as Hp.
  { unfold ordered. injection Hb as -> -> -> ->. lia. }
  clear Hb.
  induction calls as [| [response reword] calls IH] in p, Hp, Hcalls |- *;
    cbn [updates]; [constructor|].
  destruct Hcalls as [Hr Hcalls]. destruct Hp as (Hord & Hb0 & Hts).
  assert (ordered (updateParameters response reword p standard threshold).1)
    as Hord' by (apply updateParameters_ordered; [lia | done]).
  constructor; [done|]. apply IH; [exact Hcalls|].
  split; [done|]. destruct Hord as (O1 & O2 & O3). clear Hord' IH Hcalls.
  unfold updateParameters, store_ip. repeat case_decide; cbn; lia.
Qed.

(** ** The reward sampler *)

Section Sampler.

Lemma Math_round_bounds (a b : Z) (x : Q) :
  (inject_Z a <= x)%Q → (x <= inject_Z b)%Q → a ≤ JS.Math_round x ≤ b.
Proof.
  intros Ha Hb. unfold JS.Math_round. split.
  - rewrite <- (Qfloor_Z a). apply Qfloor_resp_le. lra.
  - apply Z.lt_succ_r. rewrite Zlt_Qlt.
    eapply Qle_lt_trans; [apply Qfloor_le|].
    unfold Z.succ. rewrite inject_Z_plus. change (inject_Z 1) with 1%Q. lra.
Qed.

(** Dividing a multiple of the step by the step is exact. *)
Lemma multiple_div_step (k step : Z) :
  step ≠ 0 → (inject_Z (k * step) / inject_Z step == inject_Z k)%Q.
Proof.
  intros Hstep. rewrite inject_Z_mult. apply Qdiv_mult_l.
  intros E. apply Hstep. by apply (inject_Z_injective step 0).
Qed.

Lemma interpolate_between (u l h : Q) :
  (0 <= u)%Q → (u <= 1)%Q → (l <= h)%Q →
  (l <= u * (h - l) + l)%Q ∧ (u * (h - l) + l <= h)%Q.
Proof. intros. split; nra. Qed.

Context `{Ranged A}.

(** The drawn reward is [k * step] for an integer [k] between
    [bmax / step] and [tmax / step]. *)
Lemma getRewardValue_steps (parameters : A) (step lo hi : Z) (u : Q) :
  0 < step → unitDraw u →
  range_bmax parameters = lo * step → range_tmax parameters = hi * step →
  lo ≤ hi →
  ∃ k, getRewardValue parameters step u = k * step ∧ lo ≤ k ≤ hi.
Proof.
  intros Hstep [Hu0 Hu1] Hlo Hhi Hle. unfold getRewardValue.
  eexists; split; [reflexivity|].
  rewrite Hlo, Hhi.
  pose proof (multiple_div_step lo step ltac:(lia)) as Elo.
  pose proof (multiple_div_step hi step ltac:(lia)) as Ehi.
  apply Math_round_bounds; rewrite Elo, Ehi;
    apply interpolate_between; try done; by rewrite <- Zle_Qle.
Qed.

(** C5. [getRewardValue] is
    [round(u * (tmax/step - bmax/step) + bmax/step) * step].  For a
    positive step, a draw [u] of the unit interval and an object whose
    [bmax] and [tmax] are multiples of the step with [bmax <= tmax], the
    reward is a multiple of the step within [[bmax, tmax]]; when
    [bmax = tmax] it is that value, whatever the draw. *)
Theorem getRewardValue_in_bracket (parameters : A) (step : Z) (u : Q) :
  0 < step → unitDraw u →
  (step | range_bmax parameters) → (step | range_tmax parameters) →
  range_bmax parameters ≤ range_tmax parameters →
  let reword := getRewardValue parameters step u in
  reword
  = JS.Math_round
      (u * (inject_Z (range_tmax parameters) / inject_Z step
            - inject_Z (range_bmax parameters) / inject_Z step)
       + inject_Z (range_bmax parameters) / inject_Z step)%Q * step
  ∧ (step | reword)
  ∧ range_bmax parameters ≤ reword ≤ range_tmax parameters
  ∧ (range_bmax parameters = range_tmax parameters →
     reword = range_bmax parameters).
Proof.
  intros Hstep Hu [lo Hlo] [hi Hhi] Hle reword.
  split; [reflexivity|].
  destruct (getRewardValue_steps parameters step lo hi u) as (k & Hk & Hrange);
    try done; [nia|].
  subst reword. rewrite Hk, Hlo, Hhi.
  repeat split; [by exists k | nia | nia | intros; nia].
Qed.

End Sampler.

(** A draw of 0.55 on the initial bracket of [t1] offers 550 yen. *)
Lemma getRewardValue_in_bracket_witness :
  getRewardValue (temporalParameters 1000 0 0) 50 (11 # 20) = 550
  ∧ 0 ≤ getRewardValue (temporalParameters 1000 0 0) 50 (11 # 20) ≤ 1000.
Proof.
  split; [reflexivity|].
  destruct (getRewardValue_in_bracket (temporalParameters 1000 0 0) 50 (11 # 20))
    as (_ & _ & Hrange & _).
  - lia.
  - split; discriminate.
  - exists 0; reflexivity.
  - exists 20; reflexivity.
  - simpl; lia.
  - exact Hrange.
Defined.

(** ** Titration with a consistent subject *)

Lemma consistentPolicy_threshold (value : Z) :
  consistentPolicy value (thresholdPolicy value).
Proof.
  intros x. unfold thresholdPolicy, validResponse.
  case_decide; repeat split; intros; (done || lia || auto).
Qed.

Lemma initialBracket_invariant (standard step value : Z) (p : Parameters) :
  0 ≤ standard → (step | standard) → initialBracket standard p →
  titrationInvariant standard step value p.
Proof.
  intros Hstd Hdiv [Hb _]. injection Hb as Htmin Htmax Hbmin Hbmax.
  unfold titrationInvariant, ordered. rewrite Htmin, Htmax, Hbmin, Hbmax.
  repeat split; try lia; try done; apply Z.divide_0_r.
Qed.

Section ConsistentSubject.

Variables (standard step threshold value : Z) (policy : Z → string).
Hypothesis step_positive : 0 < step.
Hypothesis standard_multiple : (step | standard).
Hypothesis policy_consistent : consistentPolicy value policy.

(** One titration trial keeps the invariant and does not widen the
    bracket: the branches that reset [bmax] to 0 or [tmax] to the
    standard are never taken by a consistent subject. *)
Lemma titration_step (p : Parameters) (u : Q) :
  unitDraw u → titrationInvariant standard step value p →
  let reword := getRewardValue p step u in
  let p' := (updateParameters (policy reword) reword p standard threshold).1 in
  titrationInvariant standard step value p' ∧ width p' ≤ width p.
Proof.
  intros Hu (Hord & Hb0 & Hts & Dtmin & Dtmax & Dbmin & Dbmax & Hlow & Hhigh).
  destruct Hord as (O1 & O2 & O3).
  destruct (getRewardValue_in_bracket p step u) as (_ & Dr & Hr & _);
    try done; [cbn; lia|].
  cbn [range_bmax range_tmax Parameters_Ranged] in Hr.
  cbv zeta. set (reword := getRewardValue p step u) in *.
  destruct (policy_consistent reword) as (HA & HB & [Hp | Hp]); rewrite Hp.
  - assert (value ≤ reword) as Hv.
    { destruct (decide (reword < value)) as [Hlt|]; [|lia].
      apply HB in Hlt. congruence. }
    unfold titrationInvariant, ordered. branches;
      repeat split; (lia || assumption || apply Z.divide_0_r).
  - assert (reword ≤ value) as Hv.
    { destruct (decide (value < reword)) as [Hlt|]; [|lia].
      apply HA in Hlt. congruence. }
    unfold titrationInvariant, ordered. branches;
      repeat split; (lia || assumption || apply Z.divide_0_r).
Qed.

Lemma titration_invariant (draws : list Q) (p : Parameters) :
  Forall unitDraw draws → titrationInvariant standard step value p →
  Forall (titrationInvariant standard step value)
    (titration standard step threshold policy draws p).
Proof.
  intros Hdraws. induction Hdraws as [| u draws Hu _ IH] in p |- *;
    intros Hp; cbn [titration]; constructor.
  - by apply titration_step.
  - apply IH. by apply titration_step.
Qed.

Lemma titration_width (draws : list Q) (p : Parameters) (i : nat)
    (a b : Parameters) :
  Forall unitDraw draws → titrationInvariant standard step value p →
  (p :: titration standard step threshold policy draws p) !! i = Some a →
  (p :: titration standard step threshold policy draws p) !! S i = Some b →
  width b ≤ width a.
Proof.
  intros Hdraws. induction Hdraws as [| u draws Hu _ IH] in p, i |- *;
    intros Hp Ha Hb; cbn [titration] in *.
  - destruct i; discriminate.
  - destruct (titration_step p u Hu Hp) as [Hp' Hw].
    destruct i as [| i].
    + cbn in Ha, Hb. injection Ha as <-. injection Hb as <-. exact Hw.
    + apply (IH _ i Hp'); [exact Ha | exact Hb].
Qed.

End ConsistentSubject.



Lemma titration_cons standard step threshold policy u draws p :
  titration standard step threshold policy (u :: draws) p
  = (updateParameters (policy (getRewardValue p step u))
       (getRewardValue p step u) p standard threshold).1
    :: titration standard step threshold policy draws
         (updateParameters (policy (getRewardValue p step u))
            (getRewardValue p step u) p standard threshold).1.
Proof. reflexivity. Qed.

(** With every draw equal to 0 the sampler offers [bmax]; a subject who
    values the standard at 500 yen answers ['B'] to an offer of 0, and
    the initial state of [t1] is stored again. *)
Lemma titration_stuck (n : nat) :
  titration 1000 50 50 (thresholdPolicy 500) (replicate n 0%Q)
    (temporalParameters 1000 0 0)
  = replicate n (temporalParameters 1000 0 0).
Proof.
  induction n as [| n IH]; [reflexivity|].
  cbn [replicate]. rewrite titration_cons.
  change ((updateParameters
             (thresholdPolicy 500 (getRewardValue (temporalParameters 1000 0 0) 50 0))
             (getRewardValue (temporalParameters 1000 0 0) 50 0)
             (temporalParameters 1000 0 0) 1000 50).1)
    with (temporalParameters 1000 0 0).
  by rewrite IH.
Qed.


(** ** Distractor trials *)

Lemma tp_state_count_incr (e : TrialParameters) :
  tp_state (tp_count_incr e) = tp_state e.
Proof. by destruct e. Qed.

Lemma saveData_name data settings parameters :
  Data.name (saveData data settings parameters) = Data.name data.
Proof. unfold saveData. by destruct settings, parameters. Qed.

(** What [handleOnDistractorStart] does to the settings: the counter of
    [d0] goes up by one, [reword] and [stimulus] are replaced, and
    nothing else changes. *)
Lemma handleOnDistractorStart_effect settings lastTrialName pick u settings' :
  handleOnDistractorStart settings lastTrialName pick u = Some settings' →
  ∃ last chosen d0 stimulus,
    Settings.parameters settings !! lastTrialName = Some last
    ∧ chosen ∈ Object_values (Settings.parameters settings)
    ∧ tp_type chosen = distractorTrialType (tp_type last)
    ∧ Settings.parameters settings !! "d0" = Some d0
    ∧ getStimulousString settings' (tp_name chosen) = Some stimulus
    ∧ settings'
      = set_stimulus stimulus
          (set_reword
             (getRewardValue (mkDummyRange (Settings.standard settings) 0)
                (Settings.step settings) u)
             (set_parameter "d0" (tp_count_incr d0) settings)).
Proof.
  unfold handleOnDistractorStart, sampleOne. intros Hrun.
  destruct (Settings.parameters settings !! lastTrialName) as [last|] eqn:Hlast;
    simpl in Hrun; [|done].
  match type of Hrun with
  | context [ filter ?P ?l !! ?i ] =>
      destruct (filter P l !! i) as [chosen|] eqn:Hchosen
  end; simpl in Hrun; [|done].
  destruct (Settings.parameters settings !! "d0") as [d0|] eqn:Hd0;
    simpl in Hrun; [|done].
  match type of Hrun with
  | context [ getStimulousString ?s ?n ] =>
      destruct (getStimulousString s n) as [stimulus|] eqn:Hstimulus
  end; simpl in Hrun; [|done].
  injection Hrun as <-.
  apply list_elem_of_lookup_2, list_elem_of_filter in Hchosen as [Htype Hin].
  exists last, chosen, d0, stimulus. repeat split; try done.
Qed.

(** C9. A distractor trial leaves every condition as it was: for every
    name of the parameters map, the bounds [tmin], [tmax], [bmin], [bmax]
    and the indifference point are the same after the trial as before,
    and every object other than [d0] is unchanged altogether.  The trial
    adds one to the counter of [d0], draws its reward from
    [{tmax: standard, bmax: 0}] (a multiple of the step between 0 and the
    standard amount), takes its stimulus text from a condition of the
    type opposite to that of the trial before, and leaves the trial
    count and the number of indifference points alone; its data carry no
    trial parameters. *)
Theorem distractorTrial_keeps_conditions
    (settings : Settings.t) (lastTrialName : string) (inp : Inputs)
    (settings' : Settings.t) (data : Data.t) :
  distractorTrial settings lastTrialName inp = Some (settings', data) →
  (∀ key, tp_state <$> Settings.parameters settings' !! key
          = tp_state <$> Settings.parameters settings !! key)
  ∧ (∀ key, key ≠ "d0" →
       Settings.parameters settings' !! key = Settings.parameters settings !! key)
  ∧ (∃ d0, Settings.parameters settings !! "d0" = Some d0
           ∧ Settings.parameters settings' !! "d0" = Some (tp_count_incr d0))
  ∧ variables.reword (Settings.variables settings')
    = getRewardValue (mkDummyRange (Settings.standard settings) 0)
        (Settings.step settings) (u_dummy inp)
  ∧ (0 < Settings.step settings →
     (Settings.step settings | Settings.standard settings) →
     0 ≤ Settings.standard settings → unitDraw (u_dummy inp) →
     0 ≤ variables.reword (Settings.variables settings')
       ≤ Settings.standard settings)
  ∧ (∃ last chosen,
       Settings.parameters settings !! lastTrialName = Some last
       ∧ chosen ∈ Object_values (Settings.parameters settings)
       ∧ tp_type chosen = distractorTrialType (tp_type last)
       ∧ getStimulousString settings' (tp_name chosen)
         = Some (variables.stimulus (Settings.variables settings')))
  ∧ variables.count (Settings.variables settings')
    = variables.count (Settings.variables settings)
  ∧ variables.number_of_ips (Settings.variables settings')
    = variables.number_of_ips (Settings.variables settings)
  ∧ Data.name data = "distractor"
  ∧ Data.trial_parameters data = None.
Proof.
  unfold distractorTrial. intros Hrun.
  destruct (handleOnDistractorStart settings lastTrialName (pick_distractor inp)
              (u_dummy inp)) as [s|] eqn:Hstart; [|done].
  cbn in Hrun. injection Hrun as <- <-.
  apply handleOnDistractorStart_effect in Hstart
    as (last & chosen & d0 & stimulus & Hlast & Hin & Htype & Hd0 & Hstim & ->).
  cbn -[getRewardValue] in *.
  split_and!; try done.
  - intros key. destruct (decide (key = "d0")) as [-> | Hne].
    + by rewrite lookup_insert_eq, Hd0; cbn; rewrite tp_state_count_incr.
    + by rewrite lookup_insert_ne.
  - intros key Hne. by rewrite lookup_insert_ne.
  - exists d0. by rewrite lookup_insert_eq.
  - intros Hstep Hdiv Hstd Hu.
    destruct (getRewardValue_in_bracket
                (mkDummyRange (Settings.standard settings) 0)
                (Settings.step settings) (u_dummy inp))
      as (_ & _ & Hr & _); try done.
    apply Z.divide_0_r.
  - by exists last, chosen.
Qed.

(** A distractor after a trial of [t1] in the default settings: the
    condition [t1] is found as it was. *)
Lemma distractorTrial_keeps_conditions_witness :
  ∃ settings' data,
    distractorTrial (prepareSettings getUserDefinedSettings) "t1"
      (mkInputs (11 # 20) (Some 0) 3 (1 # 4) (Some 1))
    = Some (settings', data)
    ∧ Settings.parameters settings' !! "t1"
      = Settings.parameters (prepareSettings getUserDefinedSettings) !! "t1".
Proof.
  eexists _, _. split; [vm_compute; reflexivity|].
  refine (proj1 (proj2 (distractorTrial_keeps_conditions
                          (prepareSettings getUserDefinedSettings) "t1"
                          (mkInputs (11 # 20) (Some 0) 3 (1 # 4) (Some 1))
                          _ _ _)) "t1" _).
  - vm_compute; reflexivity.
  - discriminate.
Defined.

(** ** When a distractor follows a trial *)

Lemma handleOnDelaiedDiscountingStart_count settings trialName u settings' :
  handleOnDelaiedDiscountingStart settings trialName u = Some settings' →
  variables.count (Settings.variables settings')
  = S (variables.count (Settings.variables settings))
  ∧ Settings.distractorStart settings' = Settings.distractorStart settings.
Proof.
  unfold handleOnDelaiedDiscountingStart. intros Hrun.
  destruct (Settings.parameters settings !! trialName) as [[p | d] |];
    [|done..].
  match type of Hrun with
  | context [ getStimulousString ?s ?n ] =>
      destruct (getStimulousString s n) as [stimulus|]
  end; simpl in Hrun; [|done].
  by injection Hrun as <-.
Qed.

Lemma handleOnDelaiedDiscountingFinish_count settings data settings' data' console :
  handleOnDelaiedDiscountingFinish settings data = Some (settings', data', console) →
  variables.count (Settings.variables settings')
  = variables.count (Settings.variables settings)
  ∧ Settings.distractorStart settings' = Settings.distractorStart settings
  ∧ Data.name data' = Data.name data.
Proof.
  unfold handleOnDelaiedDiscountingFinish. intros Hrun.
  destruct (Settings.parameters settings !! Data.tiral_name data) as [[p | d] |];
    [|done..].
  destruct (updateParameters _ _ _ _ _) as [p' console'].
  injection Hrun as <- <- <-.
  by case_decide.
Qed.

Lemma distractorRan_one t :
  Data.name t = "delaied_discounting" → distractorRan [t] = false.
Proof.
  intros Ht. unfold distractorRan. apply bool_decide_eq_false.
  rewrite Exists_cons, Exists_nil, Ht. by intros [? | ?].
Qed.

Lemma distractorRan_two t d :
  Data.name d = "distractor" → distractorRan [t; d] = true.
Proof.
  intros Hd. unfold distractorRan. apply bool_decide_eq_true.
  rewrite !Exists_cons. auto.
Qed.

(** C4 (as amended). When an entry of the timeline runs its titration
    trial (the indifference point of its condition is not determined),
    the trial adds one to the trial count, and a distractor trial follows
    it if and only if the start value of the distractor is at most the
    trial count so reached, whether that count is even or odd.  The data
    of the entry are those of the titration trial, followed by those of
    the distractor trial when it runs. *)
Theorem timelineEntry_distractor_iff
    (settings : Settings.t) (trialName : string) (inp : Inputs)
    (settings' : Settings.t) (data : list Data.t) (console : list string) :
  timelineEntry settings trialName inp = Some (settings', data, console) →
  skipIfIpDetermined_conditional settings trialName = Some true →
  variables.count (Settings.variables settings')
  = S (variables.count (Settings.variables settings))
  ∧ (distractorRan data = true
     ↔ (Settings.distractorStart settings
        ≤ variables.count (Settings.variables settings'))%nat)
  ∧ ∃ t, Data.name t = "delaied_discounting"
         ∧ (data = [t] ∨ ∃ d, data = [t; d] ∧ Data.name d = "distractor").
Proof.
  unfold timelineEntry, delaiedDiscountingTrial. intros Hrun Hcond.
  rewrite Hcond in Hrun. simpl in Hrun.
  destruct (handleOnDelaiedDiscountingStart settings trialName (u_reward inp))
    as [s1|] eqn:Hstart; simpl in Hrun; [|done].
  destruct (handleOnDelaiedDiscountingFinish s1 _)
    as [[[s2 t] console2]|] eqn:Hfinish; simpl in Hrun; [|done].
  apply handleOnDelaiedDiscountingStart_count in Hstart as [Hc1 Hd1].
  apply handleOnDelaiedDiscountingFinish_count in Hfinish as (Hc2 & Hd2 & Ht).
  cbn in Ht.
  unfold distractorTrial_conditional in Hrun.
  destruct (bool_decide _) eqn:Hdecide in Hrun.
  - apply bool_decide_eq_true in Hdecide.
    destruct (distractorTrial s2 trialName inp) as [[s3 d]|] eqn:Hdistractor;
      simpl in Hrun; [|done].
    injection Hrun as <- <- <-.
    unfold distractorTrial in Hdistractor.
    destruct (handleOnDistractorStart s2 _ _ _) as [s3'|] eqn:Hdstart;
      simpl in Hdistractor; [|done].
    injection Hdistractor as <- <-.
    apply handleOnDistractorStart_effect in Hdstart
      as (? & ? & ? & ? & _ & _ & _ & _ & _ & ->).
    cbn in *.
    split; [lia|]. split.
    + rewrite distractorRan_two by done. split; [lia | done].
    + exists t. split; [done|]. right. by eexists.
  - apply bool_decide_eq_false in Hdecide.
    injection Hrun as <- <- <-.
    split; [lia|]. split.
    + rewrite (distractorRan_one _ Ht). split; [done | lia].
    + exists t. split; [done|]. by left.
Qed.

(** The entry of a condition whose indifference point is determined runs
    no trial at all. *)
Lemma timelineEntry_skipped settings trialName inp :
  skipIfIpDetermined_conditional settings trialName = Some false →
  timelineEntry settings trialName inp = Some (settings, [], []).
Proof. unfold timelineEntry. by intros ->. Qed.

(** The first trial of a session with the default settings: the count
    becomes 1, below the start value 70, and no distractor follows. *)
Lemma timelineEntry_distractor_iff_witness :
  ∃ settings' data console,
    timelineEntry (prepareSettings getUserDefinedSettings) "t1"
      (mkInputs (11 # 20) (Some 0) 3 (1 # 4) (Some 1))
    = Some (settings', data, console)
    ∧ variables.count (Settings.variables settings') = 1%nat
    ∧ distractorRan data = false.
Proof.
  eexists _, _, _. split; [vm_compute; reflexivity|].
  match goal with
  | |- variables.count (Settings.variables ?s) = _ ∧ distractorRan ?d = _ =>
      destruct (timelineEntry_distractor_iff
                  (prepareSettings getUserDefinedSettings) "t1"
                  (mkInputs (11 # 20) (Some 0) 3 (1 # 4) (Some 1)) s d [])
        as (Hcount & Hiff & _)
  end.
  - vm_compute; reflexivity.
  - vm_compute; reflexivity.
  - split; [exact Hcount|].
    apply not_true_is_false. intros Hran. apply Hiff in Hran.
    rewrite Hcount in Hran. vm_compute in Hran. lia.
Defined.

(** C4 (as stated) fails at odd trial counts.  In a session with the
    default settings (start value 70) that has run 70 trials, the next
    two entries of the timeline bring the count to 71 and to 72, and each
    of the two titration trials is followed by a distractor trial, while
    the rule with the evenness condition forbids one at count 71. *)
Lemma timelineEntry_one_in_two_counterexample :
  ∃ s1 t1 d1 c1 s2 t2 d2 c2,
    timelineEntry (set_count_var 70 (prepareSettings getUserDefinedSettings))
      "t1" (mkInputs (11 # 20) (Some 0) 3 (1 # 4) (Some 1))
    = Some (s1, [t1; d1], c1)
    ∧ variables.count (Settings.variables s1) = 71%nat
    ∧ Data.name t1 = "delaied_discounting" ∧ Data.name d1 = "distractor"
    ∧ ¬ oneInTwoRule (Settings.distractorStart s1) 71
    ∧ timelineEntry s1 "p1" (mkInputs (1 # 4) (Some 1) 2 (3 # 4) (Some 0))
      = Some (s2, [t2; d2], c2)
    ∧ variables.count (Settings.variables s2) = 72%nat
    ∧ Data.name t2 = "delaied_discounting" ∧ Data.name d2 = "distractor".
Proof.
  eexists _, _, _, _, _, _, _, _.
  split; [vm_compute; reflexivity|].
  split; [reflexivity|]. split; [reflexivity|]. split; [reflexivity|].
  split.
  { intros [_ [k Hk]]. lia. }
  split; [vm_compute; reflexivity|].
  repeat split.
Qed.

(** ** The trial sequence *)

Section Sequence.

Implicit Types (l : list string) (key trialName : string).

Lemma entriesOf_Permutation trialName l1 l2 :
  l1 ≡ₚ l2 → entriesOf trialName l1 = entriesOf trialName l2.
Proof. unfold entriesOf. by intros ->. Qed.

Lemma entriesOf_replicate trialName key (n : nat) :
  entriesOf trialName (replicate n key) = if decide (key = trialName) then n else 0%nat.
Proof.
  unfold entriesOf. induction n as [| n IH]; cbn [replicate].
  - by case_decide.
  - rewrite filter_cons. repeat case_decide; simplify_eq; cbn; by rewrite ?IH.
Qed.

Lemma entriesOf_repeated trialName l (n : nat) :
  entriesOf trialName (l ≫= replicate n) = (n * entriesOf trialName l)%nat.
Proof.
  induction l as [| key l IH]; [cbn; lia|].
  rewrite bind_cons. unfold entriesOf in *.
  rewrite filter_app, length_app, IH, filter_cons.
  fold (entriesOf trialName (replicate n key)). rewrite entriesOf_replicate.
  repeat case_decide; simplify_eq; cbn [length]; lia.
Qed.

Lemma entriesOf_NoDup trialName l :
  NoDup l → entriesOf trialName l = if decide (trialName ∈ l) then 1%nat else 0%nat.
Proof.
  unfold entriesOf. induction 1 as [| key l Hnotin _ IH]; [done|].
  rewrite filter_cons.
  destruct (decide (key = trialName)) as [-> | Hne]; cbn [length]; rewrite IH.
  - rewrite decide_False by done. rewrite decide_True; [done | by left].
  - destruct (decide (trialName ∈ l)) as [Hin | Hin].
    + rewrite decide_True; [done | by right].
    + rewrite decide_False; [done|].
      rewrite elem_of_cons. intros [-> | ?]; done.
Qed.

Lemma elem_of_Object_keys (m : gmap string TrialParameters) key :
  key ∈ Object_keys m ↔ is_Some (m !! key).
Proof.
  unfold Object_keys. rewrite list_elem_of_fmap. split.
  - intros ([k v] & -> & Hkv). apply elem_of_map_to_list in Hkv. by exists v.
  - intros [v Hv]. exists (key, v). by rewrite elem_of_map_to_list.
Qed.

(** The entries of a sequence that [prepareTrialSequence] returns, name
    by name. *)
Lemma prepareTrialSequence_counts (settings : Settings.t) (out : list string) :
  prepareTrialSequence settings out →
  (∀ trialName,
     is_Some (Settings.parameters settings !! trialName) → trialName ≠ "d0" →
     entriesOf trialName out = Settings.maximumTrialCount settings)
  ∧ entriesOf "d0" out = 0%nat
  ∧ (∀ trialName,
       Settings.parameters settings !! trialName = None →
       entriesOf trialName out = 0%nat)
  ∧ (noRepeats (λ a b, bool_decide (a = b)) out = true
     ∨ ∀ l, l ≡ₚ out → noRepeats (λ a b, bool_decide (a = b)) l = false).
Proof.
  intros (repeatedArray & Hrepeat & Hshuffle & Hneighbours).
  unfold randomization_repeat in Hrepeat.
  set (trialNames :=
         filter (λ key, key ≠ "d0") (Object_keys (Settings.parameters settings)))
    in *.
  assert (NoDup trialNames) as Hnodup.
  { apply NoDup_filter, NoDup_fst_map_to_list. }
  assert (∀ trialName,
            entriesOf trialName out
            = (Settings.maximumTrialCount settings
               * if decide (trialName ∈ trialNames) then 1 else 0)%nat) as Hcount.
  { intros trialName.
    rewrite (entriesOf_Permutation _ _ _ Hshuffle),
      (entriesOf_Permutation _ _ _ Hrepeat), entriesOf_repeated.
    by rewrite entriesOf_NoDup. }
  split_and!.
  - intros trialName Hin Hne. rewrite Hcount, decide_True; [lia|].
    apply list_elem_of_filter. by rewrite elem_of_Object_keys.
  - rewrite Hcount, decide_False; [lia|].
    intros Hin. by apply list_elem_of_filter in Hin as [? _].
  - intros trialName Hnone. rewrite Hcount, decide_False; [lia|].
    intros Hin. apply list_elem_of_filter in Hin as [_ Hin].
    apply elem_of_Object_keys in Hin as [? ?]. congruence.
  - destruct Hneighbours as [Hyes | Hno]; [by left | right].
    intros l Hl. apply Hno. by rewrite Hl.
Qed.

(** [prepareTrialSequence] always has a sequence to return. *)
Lemma prepareTrialSequence_total (settings : Settings.t) :
  ∃ out, prepareTrialSequence settings out.
Proof.
  unfold prepareTrialSequence.
  set (repeatedArray :=
         filter (λ key, key ≠ "d0") (Object_keys (Settings.parameters settings))
         ≫= replicate (Settings.maximumTrialCount settings)).
  destruct (decide (Exists (λ l, noRepeats (λ a b, bool_decide (a = b)) l = true)
                      (permutations repeatedArray))) as [Hyes | Hno].
  - apply Exists_exists in Hyes as (out & Hperm & Hout).
    apply permutations_Permutation in Hperm.
    exists out, repeatedArray. unfold randomization_repeat.
    split; [reflexivity|]. split; [by symmetry | by left].
  - exists repeatedArray, repeatedArray. unfold randomization_repeat.
    split; [reflexivity|]. split; [reflexivity | right].
    intros l Hl. apply not_true_is_false. intros Htrue. apply Hno.
    apply Exists_exists. exists l. split; [|done].
    by apply permutations_Permutation.
Qed.

(** With two conditions or more the entries can always be arranged
    without equal neighbours (take the conditions in turn), so every
    sequence returned has none. *)
Lemma noRepeats_app {A} (equalityTest : A → A → bool) (l1 l2 : list A) :
  noRepeats equalityTest l1 = true → noRepeats equalityTest l2 = true →
  (∀ x y, last l1 = Some x → head l2 = Some y → equalityTest x y = false) →
  noRepeats equalityTest (l1 ++ l2) = true.
Proof.
  induction l1 as [| a [| b l1] IH]; intros H1 H2 Hjoin.
  - done.
  - destruct l2 as [| y l2]; [done|]. cbn.
    rewrite (Hjoin a y) by done. cbn in H2 |- *. exact H2.
  - cbn in H1 |- *. apply andb_true_iff in H1 as [Hab H1].
    rewrite Hab. cbn. apply IH; [done | done |].
    intros x y Hx Hy. by apply Hjoin.
Qed.

Lemma noRepeats_NoDup l :
  NoDup l → noRepeats (λ a b, bool_decide (a = b)) l = true.
Proof.
  induction 1 as [| a l Ha _ IH]; [done|].
  destruct l as [| b l]; [done|]. cbn in *. rewrite IH, andb_true_r.
  apply negb_true_iff, bool_decide_eq_false. intros ->. apply Ha. by left.
Qed.

Lemma in_turn_Permutation {A} (l : list A) (n : nat) :
  mjoin (replicate n l) ≡ₚ l ≫= replicate n.
Proof.
  induction n as [| n IH]; cbn [replicate].
  - cbn. induction l as [| a l IHl]; [done|]. by rewrite bind_cons.
  - change (mjoin (l :: replicate n l)) with (l ++ mjoin (replicate n l)).
    rewrite IH. clear IH.
    induction l as [| a l IHl]; [done|].
    rewrite !bind_cons. cbn [replicate]. cbn. f_equiv.
    rewrite <- IHl. by rewrite !(assoc (++)), (Permutation_app_comm l).
Qed.

Lemma in_turn_noRepeats key1 key2 l (n : nat) :
  NoDup (key1 :: key2 :: l) →
  noRepeats (λ a b, bool_decide (a = b))
    (mjoin (replicate n (key1 :: key2 :: l))) = true.
Proof.
  intros Hnodup. induction n as [| n IH]; [done|].
  cbn [replicate].
  change (mjoin ((key1 :: key2 :: l) :: replicate n (key1 :: key2 :: l)))
    with ((key1 :: key2 :: l) ++ mjoin (replicate n (key1 :: key2 :: l))).
  apply noRepeats_app; [by apply noRepeats_NoDup | done |].
  intros x y Hx Hy. apply bool_decide_eq_false. intros ->.
  assert (y = key1) as ->.
  { destruct n; cbn in Hy; [done | by injection Hy]. }
  apply NoDup_cons in Hnodup as [Hnotin _]. apply Hnotin.
  change (last (key1 :: key2 :: l)) with (last (key2 :: l)) in Hx.
  by apply last_Some_elem_of.
Qed.

Lemma prepareTrialSequence_noRepeats (settings : Settings.t) (out : list string)
    key1 key2 :
  key1 ≠ key2 → key1 ≠ "d0" → key2 ≠ "d0" →
  is_Some (Settings.parameters settings !! key1) →
  is_Some (Settings.parameters settings !! key2) →
  prepareTrialSequence settings out →
  noRepeats (λ a b, bool_decide (a = b)) out = true.
Proof.
  intros Hne H1 H2 Hin1 Hin2 (repeatedArray & Hrepeat & _ & [Hyes | Hno]);
    [done|].
  unfold randomization_repeat in Hrepeat.
  set (trialNames :=
         filter (λ key, key ≠ "d0") (Object_keys (Settings.parameters settings)))
    in *.
  assert (NoDup trialNames) as Hnodup
    by apply NoDup_filter, NoDup_fst_map_to_list.
  assert (key1 ∈ trialNames) as Hk1
    by (apply list_elem_of_filter; by rewrite elem_of_Object_keys).
  assert (key2 ∈ trialNames) as Hk2
    by (apply list_elem_of_filter; by rewrite elem_of_Object_keys).
  destruct trialNames as [| a [| b l]].
  - by apply elem_of_nil in Hk1.
  - apply list_elem_of_singleton in Hk1, Hk2. congruence.
  - specialize (Hno (mjoin (replicate (Settings.maximumTrialCount settings)
                              (a :: b :: l)))).
    rewrite in_turn_noRepeats in Hno by done.
    assert (true = false) as Habs; [|done].
    apply Hno. by rewrite Hrepeat, in_turn_Permutation.
Qed.

(** What the sequences without equal neighbours leave out: a single
    condition repeated twice or more, which can only be arranged as that
    condition again and again. *)
Lemma prepareTrialSequence_single (settings : Settings.t) (out : list string) :
  prepareTrialSequence settings out →
  noRepeats (λ a b, bool_decide (a = b)) out = true
  ∨ ∃ key,
      out = replicate (Settings.maximumTrialCount settings) key
      ∧ (2 ≤ Settings.maximumTrialCount settings)%nat
      ∧ ∀ trialName,
          is_Some (Settings.parameters settings !! trialName) →
          trialName ≠ "d0" → trialName = key.
Proof.
  intros Hsequence. pose proof Hsequence as (repeatedArray & Hrepeat & Hshuffle & _).
  unfold randomization_repeat in Hrepeat.
  assert (NoDup (filter (λ key, key ≠ "d0")
                   (Object_keys (Settings.parameters settings)))) as Hnodup
    by apply NoDup_filter, NoDup_fst_map_to_list.
  assert (∀ trialName,
            is_Some (Settings.parameters settings !! trialName) →
            trialName ≠ "d0" →
            trialName ∈ filter (λ key, key ≠ "d0")
                          (Object_keys (Settings.parameters settings))) as Hnames
    by (intros; apply list_elem_of_filter; by rewrite elem_of_Object_keys).
  assert (∀ trialName,
            trialName ∈ filter (λ key, key ≠ "d0")
                          (Object_keys (Settings.parameters settings)) →
            is_Some (Settings.parameters settings !! trialName)
            ∧ trialName ≠ "d0") as Hkeys.
  { intros trialName Hin. apply list_elem_of_filter in Hin as [Hne Hin].
    by rewrite <- elem_of_Object_keys. }
  destruct (filter (λ key, key ≠ "d0")
              (Object_keys (Settings.parameters settings)))
    as [| a [| b l]].
  - left. cbn in Hrepeat. apply Permutation_nil_r in Hrepeat as ->.
    by apply Permutation_nil_r in Hshuffle as ->.
  - cbn in Hrepeat. rewrite app_nil_r in Hrepeat. rewrite Hrepeat in Hshuffle.
    symmetry in Hshuffle. apply replicate_Permutation in Hshuffle as <-.
    destruct (Settings.maximumTrialCount settings) as [| [| n]];
      [by left | by left | right].
    exists a. split_and!; [done | lia |].
    intros trialName Hin Hne.
    by apply Hnames, list_elem_of_singleton in Hin.
  - left. apply NoDup_cons in Hnodup as [Hab _].
    destruct (Hkeys a) as [Ha Ha0]; [by left|].
    destruct (Hkeys b) as [Hb Hb0]; [by right; left|].
    apply (prepareTrialSequence_noRepeats settings out a b); try done.
    intros ->. apply Hab. by left.
Qed.

(** C7. [prepareTrialSequence] returns a sequence, and every sequence it
    returns holds exactly [maximumTrialCount] entries for each name of
    the parameters map other than [d0], none for [d0] and none for any
    other name.  No two neighbouring entries refer to the same condition
    unless the entries cannot be arranged that way at all; that is the
    case only of a single condition repeated twice or more, and never
    when the map holds two conditions. *)
Theorem prepareTrialSequence_entries (settings : Settings.t) :
  (∃ out, prepareTrialSequence settings out)
  ∧ ∀ out,
      prepareTrialSequence settings out →
      (∀ trialName,
         is_Some (Settings.parameters settings !! trialName) → trialName ≠ "d0" →
         entriesOf trialName out = Settings.maximumTrialCount settings)
      ∧ entriesOf "d0" out = 0%nat
      ∧ (∀ trialName,
           Settings.parameters settings !! trialName = None →
           entriesOf trialName out = 0%nat)
      ∧ (noRepeats (λ a b, bool_decide (a = b)) out = true
         ∨ ∀ l, l ≡ₚ out → noRepeats (λ a b, bool_decide (a = b)) l = false)
      ∧ (noRepeats (λ a b, bool_decide (a = b)) out = true
         ∨ ∃ key,
             out = replicate (Settings.maximumTrialCount settings) key
             ∧ (2 ≤ Settings.maximumTrialCount settings)%nat
             ∧ ∀ trialName,
                 is_Some (Settings.parameters settings !! trialName) →
                 trialName ≠ "d0" → trialName = key)
      ∧ (∀ key1 key2,
           key1 ≠ key2 → key1 ≠ "d0" → key2 ≠ "d0" →
           is_Some (Settings.parameters settings !! key1) →
           is_Some (Settings.parameters settings !! key2) →
           noRepeats (λ a b, bool_decide (a = b)) out = true).
Proof.
  split; [apply prepareTrialSequence_total|].
  intros out Hsequence.
  destruct (prepareTrialSequence_counts settings out Hsequence)
    as (Hentries & Hd0 & Hother & Hneighbours).
  split_and!; try done.
  - by apply prepareTrialSequence_single.
  - intros key1 key2 Hne H1 H2 Hin1 Hin2.
    by apply (prepareTrialSequence_noRepeats settings out key1 key2).
Qed.

End Sequence.

(** Settings with one delay, one probability and two repetitions: the
    sequence [t1, p1, t1, p1] can be returned; it holds [t1] twice and
    has no equal neighbours. *)
Lemma prepareTrialSequence_entries_witness :
  prepareTrialSequence
    (prepareSettings
       (User.mk 500 70 1000 50 [0] [100] 2
          (mkStimuli stimuli_temporalDelay stimuli_probabilityDelay)))
    ["t1"; "p1"; "t1"; "p1"]
  ∧ entriesOf "t1" ["t1"; "p1"; "t1"; "p1"] = 2%nat
  ∧ noRepeats (λ a b, bool_decide (a = b)) ["t1"; "p1"; "t1"; "p1"] = true.
Proof.
  assert (prepareTrialSequence
            (prepareSettings
               (User.mk 500 70 1000 50 [0] [100] 2
                  (mkStimuli stimuli_temporalDelay stimuli_probabilityDelay)))
            ["t1"; "p1"; "t1"; "p1"]) as Hseq.
  { exists ["t1"; "t1"; "p1"; "p1"]. unfold randomization_repeat. split; [|split].
    - apply (bool_decide_unpack _). vm_compute. exact I.
    - apply (bool_decide_unpack _). vm_compute. exact I.
    - left. reflexivity. }
  split; [exact Hseq|].
  destruct (prepareTrialSequence_entries
              (prepareSettings
                 (User.mk 500 70 1000 50 [0] [100] 2
                    (mkStimuli stimuli_temporalDelay stimuli_probabilityDelay))))
    as [_ Hall].
  destruct (Hall _ Hseq) as (Hentries & _ & _ & _ & _ & Hneighbours).
  split.
  - apply (Hentries "t1"); [vm_compute; eauto | discriminate].
  - apply (Hneighbours "t1" "p1"); try discriminate; vm_compute; eauto.
Defined.

(** ** A session of one condition, end to end *)

(** A subject who always takes the standard, with offers of 550, 800,
    1000 and 1000 yen: the lower pair climbs to the standard amount and
    the fourth answer fixes the indifference point. *)
Example titration_always_standard :
  map (λ q, (brackets q, ip q))
    (titration 1000 50 50 (λ _, "B") [11 # 20; 4 # 5; 1; 1]%Q
       (temporalParameters 1000 0 0))
  = [ ((1000, 1000, 550, 0), None);
      ((1000, 1000, 800, 550), None);
      ((1000, 1000, 1000, 800), None);
      ((1000, 1000, 1000, 1000), Some 1000) ].
Proof. vm_compute. reflexivity. Qed.

(** The conditions that [prepareSettings] creates start from the initial
    bracket. *)
Lemma prepareSettings_initialBracket (user : User.t) (e : TrialParameters)
    (p : Parameters) :
  e ∈ trialParameters user → e = Condition p →
  initialBracket (User.standard user) p.
Proof.
  unfold trialParameters. rewrite !elem_of_app, !list_elem_of_lookup.
  intros [[i Hi] | [[i Hi] | [i Hi]]] ->.
  - apply list_lookup_imap_Some in Hi as (val & _ & [= ->]). by split.
  - apply list_lookup_imap_Some in Hi as (val & _ & [= ->]). by split.
  - destruct i; [done|]. by destruct i.
Qed.

(** * Further properties of the session *)

(** The small session of the examples: its trial sequence is one that
    [prepareTrialSequence] can return, and its draws are in the unit
    interval. *)
Lemma smallSequence_prepared :
  prepareTrialSequence (prepareSettings smallUser) smallSequence.*1.
Proof.
  exists ["t1"; "t1"; "p1"; "p1"]. unfold randomization_repeat. split; [|split].
  - apply (bool_decide_unpack _). vm_compute. exact I.
  - apply (bool_decide_unpack _). vm_compute. exact I.
  - left. reflexivity.
Qed.

Lemma exampleInputs_unit : unitInputs smallSequence.
Proof. repeat constructor; discriminate. Qed.

(** ** The settings built by [prepareSettings] *)

Section ParametersMap.

Implicit Types (m : gmap string TrialParameters) (l : list TrialParameters).

Lemma foldl_store_notin l m key :
  key ∉ tp_name <$> l →
  foldl (λ m trial, <[tp_name trial := trial]> m) m l !! key = m !! key.
Proof.
  induction l as [| a l IH] in m |- *; [done|].
  rewrite fmap_cons, not_elem_of_cons. intros [Hne Hnotin]. cbn [foldl].
  rewrite IH by done. by rewrite lookup_insert_ne.
Qed.

Lemma foldl_store_elem l m e :
  NoDup (tp_name <$> l) → e ∈ l →
  foldl (λ m trial, <[tp_name trial := trial]> m) m l !! tp_name e = Some e.
Proof.
  induction l as [| a l IH] in m |- *; intros Hnodup Hin.
  - by apply elem_of_nil in Hin.
  - rewrite fmap_cons in Hnodup. apply NoDup_cons in Hnodup as [Hnotin Hnodup].
    cbn [foldl]. apply elem_of_cons in Hin as [-> | Hin].
    + rewrite foldl_store_notin by done. by rewrite lookup_insert_eq.
    + by apply IH.
Qed.

Lemma foldl_store_Some l m key e :
  foldl (λ m trial, <[tp_name trial := trial]> m) m l !! key = Some e →
  (e ∈ l ∧ tp_name e = key) ∨ m !! key = Some e.
Proof.
  induction l as [| a l IH] in m |- *; cbn [foldl]; [by right|].
  intros Hlookup. apply IH in Hlookup as [[Hin Hname] | Hlookup].
  - left. split; [by right | done].
  - destruct (decide (tp_name a = key)) as [<- | Hne].
    + rewrite lookup_insert_eq in Hlookup. injection Hlookup as <-.
      left. split; [by left | done].
    + rewrite lookup_insert_ne in Hlookup by done. by right.
Qed.

Lemma trialParameters_names (user : User.t) :
  tp_name <$> trialParameters user
  = ((λ idx, "t" +:+ pretty (idx + 1)%nat) <$> seq 0 (length (User.temporalDelays user)))
    ++ ((λ idx, "p" +:+ pretty (idx + 1)%nat) <$> seq 0 (length (User.probabilities user)))
    ++ ["d0"].
Proof.
  unfold trialParameters. rewrite !fmap_app, !fmap_imap.
  by rewrite <- !imap_seq_0.
Qed.

Lemma trialParameters_NoDup (user : User.t) :
  NoDup (tp_name <$> trialParameters user).
Proof.
  rewrite trialParameters_names.
  assert (∀ c, Inj (=) (=) (λ idx : nat, String c (pretty (idx + 1)%nat))) as Hinj.
  { intros c i j [= Heq]. apply (inj pretty) in Heq. lia. }
  apply NoDup_app. split_and!.
  - apply (NoDup_fmap_2 _), NoDup_seq.
  - intros key Hkey Hin.
    apply list_elem_of_fmap in Hkey as (i & -> & _).
    apply elem_of_app in Hin as [Hin | Hin].
    + by apply list_elem_of_fmap in Hin as (j & [=] & _).
    + by apply list_elem_of_singleton in Hin.
  - apply NoDup_app. split_and!.
    + apply (NoDup_fmap_2 _), NoDup_seq.
    + intros key Hkey Hin.
      apply list_elem_of_fmap in Hkey as (i & -> & _).
      by apply list_elem_of_singleton in Hin.
    + apply NoDup_singleton.
Qed.

(** An object is in the parameters map exactly when [prepareSettings]
    created it, and it is stored under its name. *)
Lemma prepareSettings_lookup (user : User.t) key e :
  Settings.parameters (prepareSettings user) !! key = Some e
  ↔ e ∈ trialParameters user ∧ tp_name e = key.
Proof.
  cbn. split.
  - intros Hlookup. by apply foldl_store_Some in Hlookup as [? | ?].
  - intros [Hin <-]. apply foldl_store_elem; [apply trialParameters_NoDup | done].
Qed.

End ParametersMap.

(** The objects of the map built by [prepareSettings], one by one. *)
Lemma prepareSettings_entries (user : User.t) :
  (∀ idx val, User.temporalDelays user !! idx = Some val →
     Settings.parameters (prepareSettings user) !! ("t" +:+ pretty (idx + 1)%nat)
     = Some (Condition (temporalParameters (User.standard user) idx val)))
  ∧ (∀ idx val, User.probabilities user !! idx = Some val →
       Settings.parameters (prepareSettings user) !! ("p" +:+ pretty (idx + 1)%nat)
       = Some (Condition (probabilityParameters (User.standard user) idx val)))
  ∧ Settings.parameters (prepareSettings user) !! "d0"
    = Some (Distractor distractorParameters)
  ∧ (∀ key e, Settings.parameters (prepareSettings user) !! key = Some e →
       tp_name e = key
       ∧ ((∃ idx val, User.temporalDelays user !! idx = Some val
                      ∧ e = Condition (temporalParameters (User.standard user) idx val))
          ∨ (∃ idx val, User.probabilities user !! idx = Some val
                        ∧ e = Condition (probabilityParameters (User.standard user) idx val))
          ∨ e = Distractor distractorParameters)).
Proof.
  split_and!.
  - intros idx val Hidx.
    apply (prepareSettings_lookup user _
             (Condition (temporalParameters (User.standard user) idx val))).
    split; [|done]. unfold trialParameters. rewrite elem_of_app. left.
    by apply (elem_of_lookup_imap_2
                (λ idx val, Condition (temporalParameters (User.standard user) idx val))).
  - intros idx val Hidx.
    apply (prepareSettings_lookup user _
             (Condition (probabilityParameters (User.standard user) idx val))).
    split; [|done]. unfold trialParameters. rewrite !elem_of_app. right. left.
    by apply (elem_of_lookup_imap_2
                (λ idx val, Condition (probabilityParameters (User.standard user) idx val))).
  - apply (prepareSettings_lookup user _ (Distractor distractorParameters)).
    split; [|done]. unfold trialParameters. rewrite !elem_of_app. right. right.
    by left.
  - intros key e Hlookup. apply prepareSettings_lookup in Hlookup as [Hin Hname].
    split; [done|]. unfold trialParameters in Hin.
    rewrite !elem_of_app in Hin. destruct Hin as [Hin | [Hin | Hin]].
    + left. apply elem_of_lookup_imap_1 in Hin as (idx & val & -> & Hidx). eauto.
    + right. left. apply elem_of_lookup_imap_1 in Hin as (idx & val & -> & Hidx). eauto.
    + right. right. by apply list_elem_of_singleton in Hin.
Qed.

(** X1. The map built by [prepareSettings] holds, under the name
    [t<i+1>], the condition of the delay at index [i]; under [p<i+1>],
    the condition of the probability at index [i]; under [d0], the
    distractor object; and nothing else.  No object overwrites another,
    however many delays and probabilities are configured. *)
Theorem prepareSettings_parameters (user : User.t) :
  (∀ idx val, User.temporalDelays user !! idx = Some val →
     Settings.parameters (prepareSettings user) !! ("t" +:+ pretty (idx + 1)%nat)
     = Some (Condition (temporalParameters (User.standard user) idx val)))
  ∧ (∀ idx val, User.probabilities user !! idx = Some val →
       Settings.parameters (prepareSettings user) !! ("p" +:+ pretty (idx + 1)%nat)
       = Some (Condition (probabilityParameters (User.standard user) idx val)))
  ∧ Settings.parameters (prepareSettings user) !! "d0"
    = Some (Distractor distractorParameters)
  ∧ (∀ key e, Settings.parameters (prepareSettings user) !! key = Some e →
       tp_name e = key
       ∧ ((∃ idx val, User.temporalDelays user !! idx = Some val
                      ∧ e = Condition (temporalParameters (User.standard user) idx val))
          ∨ (∃ idx val, User.probabilities user !! idx = Some val
                        ∧ e = Condition (probabilityParameters (User.standard user) idx val))
          ∨ e = Distractor distractorParameters)).
Proof. exact (prepareSettings_entries user). Qed.

(** The conditions [t3] (delay of 30 days) and [p5] (probability of 25%)
    of the default settings. *)
Lemma prepareSettings_parameters_witness :
  Settings.parameters (prepareSettings getUserDefinedSettings) !! "t3"
  = Some (Condition (temporalParameters 1000 2 30))
  ∧ Settings.parameters (prepareSettings getUserDefinedSettings) !! "p5"
    = Some (Condition (probabilityParameters 1000 4 25)).
Proof.
  destruct (prepareSettings_parameters getUserDefinedSettings) as (Ht & Hp & _).
  split; [apply (Ht 2%nat 30) | apply (Hp 4%nat 25)]; reflexivity.
Defined.

(** ** One titration trial *)

Lemma getStimulousString_is_Some settings trialName :
  is_Some (Settings.parameters settings !! trialName) →
  is_Some (getStimulousString settings trialName).
Proof.
  intros [e He]. unfold getStimulousString. rewrite He. cbn.
  repeat case_decide; eauto.
Qed.

(** What [handleOnDelaiedDiscountingStart] does to the settings. *)
Lemma handleOnDelaiedDiscountingStart_effect settings trialName u settings' :
  handleOnDelaiedDiscountingStart settings trialName u = Some settings' →
  ∃ p stimulus,
    Settings.parameters settings !! trialName = Some (Condition p)
    ∧ settings'
      = set_stimulus stimulus
          (set_reword (getRewardValue p (Settings.step settings) u)
             (set_parameter trialName (Condition (set_count (S (count p)) p))
                (set_count_var (S (variables.count (Settings.variables settings)))
                   settings))).
Proof.
  unfold handleOnDelaiedDiscountingStart. intros Hrun.
  destruct (Settings.parameters settings !! trialName) as [[p | d] |];
    [|done..].
  match type of Hrun with
  | context [ getStimulousString ?s ?n ] =>
      destruct (getStimulousString s n) as [stimulus|]
  end; simpl in Hrun; [|done].
  injection Hrun as <-. by exists p, stimulus.
Qed.

Lemma handleOnDelaiedDiscountingStart_is_Some settings trialName u p :
  Settings.parameters settings !! trialName = Some (Condition p) →
  is_Some (handleOnDelaiedDiscountingStart settings trialName u).
Proof.
  intros Hp. unfold handleOnDelaiedDiscountingStart. rewrite Hp.
  match goal with
  | |- context [ getStimulousString ?s ?n ] =>
      destruct (getStimulousString_is_Some s n) as [stimulus ->]
  end; [|by eexists].
  cbn. rewrite lookup_insert_eq. by eexists.
Qed.

(** What [handleOnDelaiedDiscountingFinish] does to the settings and to
    the data. *)
Lemma handleOnDelaiedDiscountingFinish_effect settings data settings' data' console :
  handleOnDelaiedDiscountingFinish settings data = Some (settings', data', console) →
  ∃ p,
    Settings.parameters settings !! Data.tiral_name data = Some (Condition p)
    ∧ let r := updateParameters (responseLabel (Data.response data))
                 (variables.reword (Settings.variables settings)) p
                 (Settings.standard settings) (Settings.threshold settings) in
      console = r.2
      ∧ settings'
        = (if decide (ip r.1 ≠ None) then
             set_number_of_ips
               (S (variables.number_of_ips (Settings.variables settings)))
           else id)
            (set_parameter (Data.tiral_name data) (Condition r.1) settings)
      ∧ data'
        = Data.mk (Data.name data) (Data.tiral_name data) (Data.response data)
            (Some (variables.reword (Settings.variables settings)))
            (Some (variables.stimulus (Settings.variables settings)))
            (Some (Condition r.1)).
Proof.
  unfold handleOnDelaiedDiscountingFinish. intros Hrun.
  destruct (Settings.parameters settings !! Data.tiral_name data) as [[p | d] |];
    [|done..].
  exists p. split; [done|]. cbv zeta.
  destruct (updateParameters _ _ _ _ _) as [p' console'].
  injection Hrun as <- <- <-. cbn [fst snd].
  by case_decide.
Qed.

(** What a titration trial does to the settings and what it records. *)
Lemma delaiedDiscountingTrial_effect
    (settings : Settings.t) (trialName : string) (inp : Inputs)
    (settings' : Settings.t) (data : Data.t) (console : list string) :
  delaiedDiscountingTrial settings trialName inp = Some (settings', data, console) →
  ∃ p,
    Settings.parameters settings !! trialName = Some (Condition p)
    ∧ let reword := getRewardValue p (Settings.step settings) (u_reward inp) in
      let r := updateParameters (responseLabel (answer inp)) reword
                 (set_count (S (count p)) p)
                 (Settings.standard settings) (Settings.threshold settings) in
      Settings.parameters settings'
      = <[trialName := Condition r.1]> (Settings.parameters settings)
      ∧ console = r.2
      ∧ variables.reword (Settings.variables settings') = reword
      ∧ variables.count (Settings.variables settings')
        = S (variables.count (Settings.variables settings))
      ∧ variables.number_of_ips (Settings.variables settings')
        = (variables.number_of_ips (Settings.variables settings)
           + if decide (ip r.1 ≠ None) then 1 else 0)%nat
      ∧ Data.name data = "delaied_discounting"
      ∧ Data.tiral_name data = trialName
      ∧ Data.response data = answer inp
      ∧ Data.reword data = Some reword
      ∧ Data.choices data = Some (variables.stimulus (Settings.variables settings'))
      ∧ Data.trial_parameters data = Some (Condition r.1)
      ∧ (Settings.standard settings', Settings.step settings',
         Settings.threshold settings', Settings.distractorStart settings',
         Settings.maximumTrialCount settings')
        = (Settings.standard settings, Settings.step settings,
           Settings.threshold settings, Settings.distractorStart settings,
           Settings.maximumTrialCount settings).
Proof.
  unfold delaiedDiscountingTrial. intros Hrun.
  destruct (handleOnDelaiedDiscountingStart settings trialName (u_reward inp))
    as [s1|] eqn:Hstart; simpl in Hrun; [|done].
  apply handleOnDelaiedDiscountingStart_effect in Hstart
    as (p & stimulus & Hp & ->).
  apply handleOnDelaiedDiscountingFinish_effect in Hrun as (p' & Hp' & Hrun).
  cbn -[getRewardValue updateParameters] in Hp', Hrun.
  rewrite lookup_insert_eq in Hp'. injection Hp' as <-.
  destruct Hrun as (-> & -> & ->).
  exists p. split; [done|]. cbv zeta.
  change (getRewardValue (set_count (S (count p)) p) (Settings.step settings)
            (u_reward inp))
    with (getRewardValue p (Settings.step settings) (u_reward inp)).
  case_decide; cbn -[getRewardValue updateParameters];
    rewrite insert_insert_eq; split_and!; try done; lia.
Qed.



(** ** The entries of the timeline *)

(** What [distractorTrial] does to the settings and what it records. *)
Lemma distractorTrial_effect settings lastTrialName inp settings' data :
  distractorTrial settings lastTrialName inp = Some (settings', data) →
  ∃ d0 stimulus,
    Settings.parameters settings !! "d0" = Some d0
    ∧ settings'
      = set_stimulus stimulus
          (set_reword
             (getRewardValue (mkDummyRange (Settings.standard settings) 0)
                (Settings.step settings) (u_dummy inp))
             (set_parameter "d0" (tp_count_incr d0) settings))
    ∧ data
      = Data.mk "distractor" "d0" (distractor_answer inp)
          (Some (getRewardValue (mkDummyRange (Settings.standard settings) 0)
                   (Settings.step settings) (u_dummy inp)))
          (Some stimulus) None.
Proof.
  unfold distractorTrial. intros Hrun.
  destruct (handleOnDistractorStart settings lastTrialName (pick_distractor inp)
              (u_dummy inp)) as [s|] eqn:Hstart; simpl in Hrun; [|done].
  injection Hrun as <- <-.
  apply handleOnDistractorStart_effect in Hstart
    as (last & chosen & d0 & stimulus & _ & _ & _ & Hd0 & _ & ->).
  by exists d0, stimulus.
Qed.

(** The three ways in which an entry of the timeline can go: skipped,
    a titration trial alone, a titration trial and a distractor trial. *)
Lemma timelineEntry_cases settings trialName inp settings' data console :
  timelineEntry settings trialName inp = Some (settings', data, console) →
  (∃ e, Settings.parameters settings !! trialName = Some e
        ∧ tp_ip e ≠ None
        ∧ settings' = settings ∧ data = [] ∧ console = [])
  ∨ (∃ e s1 t,
       Settings.parameters settings !! trialName = Some e
       ∧ tp_ip e = None
       ∧ delaiedDiscountingTrial settings trialName inp = Some (s1, t, console)
       ∧ ((variables.count (Settings.variables s1) < Settings.distractorStart s1)%nat
          ∧ settings' = s1 ∧ data = [t]
          ∨ (Settings.distractorStart s1 ≤ variables.count (Settings.variables s1))%nat
            ∧ ∃ d, distractorTrial s1 trialName inp = Some (settings', d)
                   ∧ data = [t; d])).
Proof.
  unfold timelineEntry, skipIfIpDetermined_conditional. intros Hrun.
  destruct (Settings.parameters settings !! trialName) as [e|] eqn:He;
    simpl in Hrun; [|done].
  destruct (bool_decide (tp_ip e = None)) eqn:Hip.
  - apply bool_decide_eq_true in Hip. right.
    destruct (delaiedDiscountingTrial settings trialName inp)
      as [[[s1 t] console1]|] eqn:Htrial; simpl in Hrun; [|done].
    exists e, s1, t. unfold distractorTrial_conditional in Hrun.
    destruct (bool_decide _) eqn:Hstart in Hrun.
    + apply bool_decide_eq_true in Hstart.
      destruct (distractorTrial s1 trialName inp) as [[s2 d]|] eqn:Hdistractor;
        simpl in Hrun; [|done].
      injection Hrun as <- <- <-. split_and!; try done. right. eauto.
    + apply bool_decide_eq_false in Hstart.
      injection Hrun as <- <- <-. split_and!; try done. left.
      split_and!; try done. lia.
  - apply bool_decide_eq_false in Hip. left.
    injection Hrun as <- <- <-. by exists e.
Qed.

(** An induction principle for properties of the settings that every
    entry of the timeline keeps. *)
Lemma doDelaiedDiscountingTask_invariant (I : Settings.t → Prop)
    settings trialSequence settings' data console :
  (∀ s trialName inp s' data console,
     I s → timelineEntry s trialName inp = Some (s', data, console) → I s') →
  I settings →
  doDelaiedDiscountingTask settings trialSequence = Some (settings', data, console) →
  I settings'.
Proof.
  intros Hentry. induction trialSequence as [| [trialName inp] rest IH]
    in settings, data, console |- *; intros HI Hrun.
  - by injection Hrun as <- _ _.
  - cbn [doDelaiedDiscountingTask] in Hrun.
    destruct (timelineEntry settings trialName inp) as [[[s1 data1] console1]|]
      eqn:Hfirst; simpl in Hrun; [|done].
    destruct (doDelaiedDiscountingTask s1 rest) as [[[s2 data2] console2]|]
      eqn:Hrest; simpl in Hrun; [|done].
    injection Hrun as <- _ _. eapply IH; [|done]. by eapply Hentry.
Qed.

(** ** A determined condition is never run again *)

Lemma timelineEntry_determined settings trialName inp settings' data console key e :
  timelineEntry settings trialName inp = Some (settings', data, console) →
  Settings.parameters settings !! key = Some e → tp_ip e ≠ None → key ≠ "d0" →
  Settings.parameters settings' !! key = Some e
  ∧ Forall (λ d, Data.name d = "delaied_discounting" → Data.tiral_name d ≠ key) data.
Proof.
  intros Hrun He Hip Hd0.
  apply timelineEntry_cases in Hrun
    as [(e' & _ & _ & -> & -> & _)
       | (e' & s1 & t & He' & Hip' & Htrial & Hrest)]; [done|].
  assert (trialName ≠ key) as Hne by (intros ->; congruence).
  apply delaiedDiscountingTrial_effect in Htrial as (p & _ & Htrial).
  cbv zeta in Htrial.
  destruct Htrial as (Hs1 & _ & _ & _ & _ & _ & Hname & _).
  assert (Settings.parameters s1 !! key = Some e) as He1
    by (by rewrite Hs1, lookup_insert_ne).
  destruct Hrest as [(_ & -> & ->) | (_ & d & Hdistractor & ->)].
  - split; [done|]. repeat constructor. congruence.
  - apply distractorTrial_effect in Hdistractor as (d0 & stimulus & _ & -> & ->).
    split; [by cbn; rewrite lookup_insert_ne|].
    repeat constructor; [congruence | done].
Qed.

(** X3. Once the indifference point of a condition is determined, no
    entry of the timeline changes the condition any more, whatever the
    rest of the trial sequence, the draws and the responses are: the
    object is found unchanged at the end of the task, and no titration
    trial of the task is recorded for it. *)
Theorem doDelaiedDiscountingTask_determined
    (settings : Settings.t) (trialSequence : list (string * Inputs))
    (settings' : Settings.t) (data : list Data.t) (console : list string)
    (key : string) (e : TrialParameters) :
  doDelaiedDiscountingTask settings trialSequence = Some (settings', data, console) →
  Settings.parameters settings !! key = Some e → tp_ip e ≠ None → key ≠ "d0" →
  Settings.parameters settings' !! key = Some e
  ∧ Forall (λ d, Data.name d = "delaied_discounting" → Data.tiral_name d ≠ key) data.
Proof.
  induction trialSequence as [| [trialName inp] rest IH]
    in settings, data, console |- *; intros Hrun He Hip Hd0.
  - injection Hrun as <- <- _. by split.
  - cbn [doDelaiedDiscountingTask] in Hrun.
    destruct (timelineEntry settings trialName inp) as [[[s1 data1] console1]|]
      eqn:Hfirst; simpl in Hrun; [|done].
    destruct (doDelaiedDiscountingTask s1 rest) as [[[s2 data2] console2]|]
      eqn:Hrest; simpl in Hrun; [|done].
    injection Hrun as <- <- _.
    destruct (timelineEntry_determined _ _ _ _ _ _ key e Hfirst He Hip Hd0)
      as [He1 Hdata1].
    destruct (IH _ _ _ Hrest He1 Hip Hd0) as [He2 Hdata2].
    split; [done|]. by apply Forall_app.
Qed.

(** The small session started with [t1] already determined: [t1] is
    found unchanged at the end. *)
Lemma doDelaiedDiscountingTask_determined_witness :
  ∃ settings' data console,
    doDelaiedDiscountingTask
      (set_parameter "t1"
         (Condition (mkParameters "t1" "temporal_delay" (Some 0) None 4
                       1000 1000 1000 1000 (Some 1000)))
         (prepareSettings smallUser))
      smallSequence = Some (settings', data, console)
    ∧ Settings.parameters settings' !! "t1"
      = Some (Condition (mkParameters "t1" "temporal_delay" (Some 0) None 4
                           1000 1000 1000 1000 (Some 1000))).
Proof.
  eexists _, _, _. split; [vm_compute; reflexivity|].
  eapply (doDelaiedDiscountingTask_determined
            (set_parameter "t1"
               (Condition (mkParameters "t1" "temporal_delay" (Some 0) None 4
                             1000 1000 1000 1000 (Some 1000)))
               (prepareSettings smallUser))
            smallSequence _ _ _ "t1").
  - vm_compute; reflexivity.
  - reflexivity.
  - discriminate.
  - discriminate.
Defined.

(** ** The number of indifference points *)

Lemma determined_insert_same (m : gmap string TrialParameters) key e e' :
  m !! key = Some e → (tp_ip e = None ↔ tp_ip e' = None) →
  size (determined (<[key := e']> m)) = size (determined m).
Proof.
  intros He Hsame. unfold determined.
  destruct (decide (tp_ip e' = None)) as [Hnone | Hsome].
  - rewrite map_filter_insert_not'; [done | by cbn; auto |].
    intros y Hy. assert (y = e) as -> by congruence. cbn. tauto.
  - rewrite map_filter_insert_True by done.
    apply map_size_insert_Some. exists e. apply map_lookup_filter_Some.
    split; [done|]. cbn. tauto.
Qed.

Lemma determined_insert_new (m : gmap string TrialParameters) key e e' :
  m !! key = Some e → tp_ip e = None → tp_ip e' ≠ None →
  size (determined (<[key := e']> m)) = S (size (determined m)).
Proof.
  intros He Hnone Hsome. unfold determined.
  rewrite map_filter_insert_True by done.
  apply map_size_insert_None. apply eq_None_not_Some. intros [y Hy].
  apply map_lookup_filter_Some in Hy as [Hy Hip]. cbn in Hip. congruence.
Qed.

Lemma tp_ip_count_incr e : tp_ip (tp_count_incr e) = tp_ip e.
Proof. by destruct e. Qed.

(** Every entry of the timeline keeps the number of indifference points
    equal to the number of determined conditions. *)
Lemma timelineEntry_number_of_ips settings trialName inp settings' data console :
  variables.number_of_ips (Settings.variables settings)
  = size (determined (Settings.parameters settings)) →
  timelineEntry settings trialName inp = Some (settings', data, console) →
  variables.number_of_ips (Settings.variables settings')
  = size (determined (Settings.parameters settings')).
Proof.
  intros HI Hrun.
  apply timelineEntry_cases in Hrun
    as [(e' & _ & _ & -> & _)
       | (e & s1 & t & He & Hip & Htrial & Hrest)]; [done|].
  apply delaiedDiscountingTrial_effect in Htrial as (p & Hp & Htrial).
  cbv zeta in Htrial.
  destruct Htrial as (Hs1 & _ & _ & _ & Hips & _).
  assert (e = Condition p) as -> by congruence. cbn in Hip.
  assert (variables.number_of_ips (Settings.variables s1)
          = size (determined (Settings.parameters s1))) as HI1.
  { rewrite Hips, Hs1, HI. case_decide as Hnew.
    - rewrite (determined_insert_new _ _ (Condition p)); [lia | done..].
    - rewrite (determined_insert_same _ _ (Condition p)); [lia | done |].
      cbn. split; [|done]. intros _.
      by destruct (ip _) eqn:E; [destruct Hnew|]. }
  destruct Hrest as [(_ & -> & _) | (_ & d & Hdistractor & _)]; [done|].
  apply distractorTrial_effect in Hdistractor as (d0 & stimulus & Hd0 & -> & _).
  cbn. rewrite (determined_insert_same _ _ d0); [done | done |].
  by rewrite tp_ip_count_incr.
Qed.

Lemma prepareSettings_determined (user : User.t) :
  determined (Settings.parameters (prepareSettings user)) = ∅.
Proof.
  apply map_empty. intros key. apply eq_None_not_Some. intros [e He].
  apply map_lookup_filter_Some in He as [He Hip].
  apply prepareSettings_lookup in He as [Hin _]. apply Hip. cbn.
  unfold trialParameters in Hin. rewrite !elem_of_app in Hin.
  destruct Hin as [Hin | [Hin | Hin]].
  - by apply elem_of_lookup_imap_1 in Hin as (idx & val & -> & _).
  - by apply elem_of_lookup_imap_1 in Hin as (idx & val & -> & _).
  - by apply list_elem_of_singleton in Hin as ->.
Qed.



(** ** The counters and the data of the task *)

Lemma updateParameters_count response reword p standard threshold :
  count (updateParameters response reword p standard threshold).1 = count p.
Proof. unfold updateParameters, store_ip. by repeat case_decide. Qed.

Lemma updateParameters_ip_None response reword p standard threshold :
  ip (updateParameters response reword p standard threshold).1 = None →
  ip p = None.
Proof. unfold updateParameters, store_ip. by repeat case_decide. Qed.

Lemma results_one t :
  Data.name t = "delaied_discounting" →
  titrationResults [t] = [t] ∧ distractorResults [t] = [].
Proof.
  intros Ht. unfold titrationResults, distractorResults.
  rewrite !filter_cons, decide_True, decide_False by (done || by rewrite Ht).
  done.
Qed.

Lemma results_two t d :
  Data.name t = "delaied_discounting" → Data.name d = "distractor" →
  titrationResults [t; d] = [t] ∧ distractorResults [t; d] = [d].
Proof.
  intros Ht Hd. unfold titrationResults, distractorResults.
  rewrite !filter_cons, Ht, Hd.
  by rewrite !decide_True, !decide_False by done.
Qed.

Lemma timelineEntry_counters settings trialName inp settings' data console :
  timelineEntry settings trialName inp = Some (settings', data, console) →
  variables.count (Settings.variables settings')
  = (variables.count (Settings.variables settings)
     + length (titrationResults data))%nat
  ∧ (∀ key p, key ≠ "d0" →
       Settings.parameters settings !! key = Some (Condition p) →
       ∃ p', Settings.parameters settings' !! key = Some (Condition p')
             ∧ count p' = (count p + length (filter (λ d, Data.tiral_name d = key)
                                 (titrationResults data)))%nat)
  ∧ (∀ d, Settings.parameters settings !! "d0" = Some (Distractor d) →
       ∃ d', Settings.parameters settings' !! "d0" = Some (Distractor d')
             ∧ d_count d' = (d_count d + length (distractorResults data))%nat).
Proof.
  intros Hrun.
  apply timelineEntry_cases in Hrun
    as [(e' & _ & _ & -> & -> & _)
       | (e & s1 & t & He & Hip & Htrial & Hrest)].
  { split_and!; [cbn; lia | intros; eexists; split; [done | cbn; lia] ..]. }
  apply delaiedDiscountingTrial_effect in Htrial as (p & Hp & Htrial).
  cbv zeta in Htrial.
  destruct Htrial as (Hs1 & _ & _ & Hcount & _ & Hname & Htiral & _).
  assert (trialName ≠ "d0" ∨ ∀ d, Settings.parameters settings !! "d0"
                                   ≠ Some (Distractor d)) as Hd0.
  { destruct (decide (trialName = "d0")) as [-> | ?]; [right | by left].
    intros d. congruence. }
  destruct (results_one t Hname) as [Ht Htd].
  assert (∀ key q, key ≠ "d0" →
            Settings.parameters settings !! key = Some (Condition q) →
            ∃ q', Settings.parameters s1 !! key = Some (Condition q')
                  ∧ count q' = (count q + length (filter (λ d, Data.tiral_name d = key)
                                      (titrationResults [t])))%nat) as Hcond.
  { intros key q Hkey Hq. rewrite Hs1, Ht, filter_cons, Htiral.
    destruct (decide (trialName = key)) as [-> | Hne].
    - rewrite lookup_insert_eq. eexists. split; [done|].
      assert (q = p) as -> by congruence.
      rewrite updateParameters_count. cbn. lia.
    - rewrite lookup_insert_ne by done. eexists. split; [done|]. cbn. lia. }
  assert (∀ d, Settings.parameters settings !! "d0" = Some (Distractor d) →
            Settings.parameters s1 !! "d0" = Some (Distractor d)) as Hdist.
  { intros d Hd. destruct Hd0 as [Hne | Habs]; [|by destruct (Habs d)].
    by rewrite Hs1, lookup_insert_ne. }
  destruct Hrest as [(_ & -> & ->) | (_ & d & Hdistractor & ->)].
  - split_and!.
    + rewrite Hcount, Ht. cbn. lia.
    + done.
    + intros d Hd. exists d. rewrite Htd. split; [by apply Hdist | cbn; lia].
  - apply distractorTrial_effect in Hdistractor as (d0 & stimulus & Hd0' & -> & Hd).
    assert (Data.name d = "distractor") as Hdname by (by rewrite Hd).
    destruct (results_two t d Hname Hdname) as [Ht2 Htd2]. clear Hd.
    split_and!.
    + rewrite Ht2. cbn -[getRewardValue]. rewrite Hcount. cbn. lia.
    + intros key q Hkey Hq. destruct (Hcond key q Hkey Hq) as (q' & Hq' & Hc).
      exists q'. rewrite Ht2, <- Ht. split; [|done].
      cbn -[getRewardValue]. by rewrite lookup_insert_ne.
    + intros d' Hd. apply Hdist in Hd.
      assert (d0 = Distractor d') as -> by congruence.
      eexists. split; [cbn -[getRewardValue]; by rewrite lookup_insert_eq|].
      rewrite Htd2. cbn. lia.
Qed.

Lemma doDelaiedDiscountingTask_counters_aux
    (settings : Settings.t) (trialSequence : list (string * Inputs))
    (settings' : Settings.t) (data : list Data.t) (console : list string) :
  doDelaiedDiscountingTask settings trialSequence = Some (settings', data, console) →
  variables.count (Settings.variables settings')
  = (variables.count (Settings.variables settings)
     + length (titrationResults data))%nat
  ∧ (∀ key p, key ≠ "d0" →
       Settings.parameters settings !! key = Some (Condition p) →
       ∃ p', Settings.parameters settings' !! key = Some (Condition p')
             ∧ count p'
               = (count p
                  + length (filter (λ d, Data.tiral_name d = key)
                              (titrationResults data)))%nat)
  ∧ (∀ d, Settings.parameters settings !! "d0" = Some (Distractor d) →
       ∃ d', Settings.parameters settings' !! "d0" = Some (Distractor d')
             ∧ d_count d' = (d_count d + length (distractorResults data))%nat).
Proof.
  induction trialSequence as [| [trialName inp] rest IH]
    in settings, data, console |- *; intros Hrun.
  - injection Hrun as <- <- _.
    split_and!; [cbn; lia | intros; eexists; split; [done | cbn; lia] ..].
  - cbn [doDelaiedDiscountingTask] in Hrun.
    destruct (timelineEntry settings trialName inp) as [[[s1 data1] console1]|]
      eqn:Hfirst; simpl in Hrun; [|done].
    destruct (doDelaiedDiscountingTask s1 rest) as [[[s2 data2] console2]|]
      eqn:Hrest; simpl in Hrun; [|done].
    injection Hrun as <- <- _.
    apply timelineEntry_counters in Hfirst as (Hc1 & Hp1 & Hd1).
    apply IH in Hrest as (Hc2 & Hp2 & Hd2).
    unfold titrationResults, distractorResults in *.
    split_and!.
    + rewrite Hc2, Hc1, filter_app, length_app. lia.
    + intros key p Hkey Hp.
      destruct (Hp1 key p Hkey Hp) as (p1 & Hp1' & Hcount1).
      destruct (Hp2 key p1 Hkey Hp1') as (p2 & Hp2' & Hcount2).
      exists p2. split; [done|].
      rewrite Hcount2, Hcount1, !filter_app, length_app. lia.
    + intros d Hd.
      destruct (Hd1 d Hd) as (d1 & Hd1' & Hcount1).
      destruct (Hd2 d1 Hd1') as (d2 & Hd2' & Hcount2).
      exists d2. split; [done|].
      rewrite Hcount2, Hcount1, filter_app, length_app. lia.
Qed.

(** X5. The counters agree with the data of the task.  Over any run of
    the task, the trial count grows by the number of titration trials
    recorded; the counter of each condition grows by the number of
    titration trials recorded under its name; and the counter of [d0]
    grows by the number of distractor trials recorded. *)
Theorem doDelaiedDiscountingTask_counters
    (settings : Settings.t) (trialSequence : list (string * Inputs))
    (settings' : Settings.t) (data : list Data.t) (console : list string) :
  doDelaiedDiscountingTask settings trialSequence = Some (settings', data, console) →
  variables.count (Settings.variables settings')
  = (variables.count (Settings.variables settings)
     + length (titrationResults data))%nat
  ∧ (∀ key p, key ≠ "d0" →
       Settings.parameters settings !! key = Some (Condition p) →
       ∃ p', Settings.parameters settings' !! key = Some (Condition p')
             ∧ count p'
               = (count p
                  + length (filter (λ d, Data.tiral_name d = key)
                              (titrationResults data)))%nat)
  ∧ (∀ d, Settings.parameters settings !! "d0" = Some (Distractor d) →
       ∃ d', Settings.parameters settings' !! "d0" = Some (Distractor d')
             ∧ d_count d' = (d_count d + length (distractorResults data))%nat).
Proof. apply doDelaiedDiscountingTask_counters_aux. Qed.

(** The small session, whose counters start from 0. *)
Lemma doDelaiedDiscountingTask_counters_witness :
  match doDelaiedDiscountingTask (prepareSettings smallUser) smallSequence with
  | Some (settings', data, console) =>
      variables.count (Settings.variables settings')
      = (0 + length (titrationResults data))%nat
      ∧ ∃ d', Settings.parameters settings' !! "d0" = Some (Distractor d')
              ∧ d_count d' = (0 + length (distractorResults data))%nat
  | None => False
  end.
Proof.
  destruct (doDelaiedDiscountingTask (prepareSettings smallUser) smallSequence)
    as [[[settings' data] console]|] eqn:Hrun; [|vm_compute in Hrun; discriminate].
  destruct (doDelaiedDiscountingTask_counters _ _ _ _ _ Hrun) as (Hcount & _ & Hd0).
  split; [exact Hcount|]. by apply (Hd0 distractorParameters).
Defined.

(** The data of one entry: nothing, a titration trial, or a titration
    trial followed by a distractor trial; with the trial count and the
    start value of the distractor before and after. *)
Lemma timelineEntry_data settings trialName inp settings' data console :
  timelineEntry settings trialName inp = Some (settings', data, console) →
  Settings.distractorStart settings' = Settings.distractorStart settings
  ∧ (data = [] ∧ variables.count (Settings.variables settings')
                 = variables.count (Settings.variables settings)
     ∨ (∃ t, data = [t] ∧ Data.name t = "delaied_discounting"
             ∧ variables.count (Settings.variables settings')
               = S (variables.count (Settings.variables settings))
             ∧ (variables.count (Settings.variables settings')
                < Settings.distractorStart settings)%nat)
     ∨ (∃ t d, data = [t; d] ∧ Data.name t = "delaied_discounting"
               ∧ Data.name d = "distractor"
               ∧ variables.count (Settings.variables settings')
                 = S (variables.count (Settings.variables settings))
               ∧ (Settings.distractorStart settings
                  ≤ variables.count (Settings.variables settings'))%nat)).
Proof.
  intros Hrun.
  apply timelineEntry_cases in Hrun
    as [(e' & _ & _ & -> & -> & _)
       | (e & s1 & t & He & Hip & Htrial & Hrest)]; [by split; [|left]|].
  apply delaiedDiscountingTrial_effect in Htrial as (p & Hp & Htrial).
  cbv zeta in Htrial.
  destruct Htrial as (_ & _ & _ & Hcount & _ & Hname & _ & _ & _ & _ & _ & Hconst).
  injection Hconst as _ _ _ Hstart _.
  destruct Hrest as [(Hlt & -> & ->) | (Hle & d & Hdistractor & ->)].
  - split; [done|]. right. left. exists t. split_and!; try done. lia.
  - apply distractorTrial_effect in Hdistractor as (d0 & stimulus & _ & -> & ->).
    split; [done|]. right. right. eexists t, _. split_and!; try done.
    cbn -[getRewardValue]. lia.
Qed.

(** X6. In the data of the task a distractor trial is never first and
    never follows another distractor trial: each one comes directly after
    a titration trial. *)
Theorem doDelaiedDiscountingTask_distractor_follows
    (settings : Settings.t) (trialSequence : list (string * Inputs))
    (settings' : Settings.t) (data : list Data.t) (console : list string)
    (i : nat) (d : Data.t) :
  doDelaiedDiscountingTask settings trialSequence = Some (settings', data, console) →
  data !! i = Some d → Data.name d = "distractor" →
  ∃ j t, i = S j ∧ data !! j = Some t ∧ Data.name t = "delaied_discounting".
Proof.
  induction trialSequence as [| [trialName inp] rest IH]
    in settings, data, console, i |- *; intros Hrun Hi Hd.
  - by injection Hrun as _ <- _.
  - cbn [doDelaiedDiscountingTask] in Hrun.
    destruct (timelineEntry settings trialName inp) as [[[s1 data1] console1]|]
      eqn:Hfirst; simpl in Hrun; [|done].
    destruct (doDelaiedDiscountingTask s1 rest) as [[[s2 data2] console2]|]
      eqn:Hrest; simpl in Hrun; [|done].
    injection Hrun as <- <- _.
    apply lookup_app_Some in Hi as [Hi | [Hlen Hi]].
    + apply timelineEntry_data in Hfirst
        as (_ & [[-> _] | [(t & -> & Ht & _) | (t & d' & -> & Ht & _)]]).
      * done.
      * destruct i; [|done]. injection Hi as <-. congruence.
      * destruct i as [| [| i]]; [| |done].
        -- injection Hi as <-. congruence.
        -- exists 0%nat, t. by split_and!.
    + destruct (IH _ _ _ _ Hrest Hi Hd) as (j & t & Hj & Ht & Hname).
      exists (length data1 + j)%nat, t. split_and!; [lia | | done].
      rewrite lookup_app_r by lia. rewrite <- Ht. f_equal. lia.
Qed.

Lemma doDelaiedDiscountingTask_distractor_count_aux
    settings trialSequence settings' data console :
  doDelaiedDiscountingTask settings trialSequence = Some (settings', data, console) →
  Settings.distractorStart settings' = Settings.distractorStart settings
  ∧ (variables.count (Settings.variables settings)
     ≤ variables.count (Settings.variables settings'))%nat
  ∧ length (distractorResults data)
    = (S (variables.count (Settings.variables settings'))
         - Settings.distractorStart settings
       - (S (variables.count (Settings.variables settings))
          - Settings.distractorStart settings))%nat.
Proof.
  induction trialSequence as [| [trialName inp] rest IH]
    in settings, data, console |- *; intros Hrun.
  - injection Hrun as <- <- _. cbn. split_and!; [done | lia | lia].
  - cbn [doDelaiedDiscountingTask] in Hrun.
    destruct (timelineEntry settings trialName inp) as [[[s1 data1] console1]|]
      eqn:Hfirst; simpl in Hrun; [|done].
    destruct (doDelaiedDiscountingTask s1 rest) as [[[s2 data2] console2]|]
      eqn:Hrest; simpl in Hrun; [|done].
    injection Hrun as <- <- _.
    apply IH in Hrest as (Hstart2 & Hle2 & Hlen2).
    unfold distractorResults in *. rewrite filter_app, length_app, Hlen2.
    apply timelineEntry_data in Hfirst
      as (Hstart1 & [[-> Hc] | [(t & -> & Ht & Hc & Hlt)
                               | (t & d & -> & Ht & Hd & Hc & Hle)]]).
    + cbn. split_and!; [congruence | lia | rewrite Hstart1, Hc; lia].
    + rewrite filter_cons, decide_False by (by rewrite Ht). cbn.
      split_and!; [congruence | lia | rewrite Hstart1; lia].
    + rewrite !filter_cons, decide_False, decide_True by (done || by rewrite Ht).
      cbn. split_and!; [congruence | lia | rewrite Hstart1; lia].
Qed.

(** X7. The number of distractor trials of the task is the number of
    titration trials that brought the trial count to the start value of
    the distractor or beyond: for a trial count going from [c] to [c']
    and the start value [s], it is [(c' + 1 - s) - (c + 1 - s)], the
    subtractions stopping at 0. *)
Theorem doDelaiedDiscountingTask_distractor_count
    (settings : Settings.t) (trialSequence : list (string * Inputs))
    (settings' : Settings.t) (data : list Data.t) (console : list string) :
  doDelaiedDiscountingTask settings trialSequence = Some (settings', data, console) →
  length (distractorResults data)
  = (S (variables.count (Settings.variables settings'))
       - Settings.distractorStart settings
     - (S (variables.count (Settings.variables settings))
        - Settings.distractorStart settings))%nat.
Proof.
  intros Hrun.
  by apply doDelaiedDiscountingTask_distractor_count_aux in Hrun as (_ & _ & ?).
Qed.

(** In the small session the third result is a distractor trial, and
    the second a titration trial. *)
Lemma doDelaiedDiscountingTask_distractor_follows_witness :
  ∃ settings' data console d,
    doDelaiedDiscountingTask (prepareSettings smallUser) smallSequence
    = Some (settings', data, console)
    ∧ data !! 2%nat = Some d ∧ Data.name d = "distractor"
    ∧ ∃ j t, 2%nat = S j ∧ data !! j = Some t
             ∧ Data.name t = "delaied_discounting".
Proof.
  eexists _, _, _, _. split; [vm_compute; reflexivity|].
  split; [reflexivity|]. split; [reflexivity|].
  eapply (doDelaiedDiscountingTask_distractor_follows
            (prepareSettings smallUser) smallSequence).
  - vm_compute; reflexivity.
  - reflexivity.
  - reflexivity.
Defined.

(** The small session, with a trial count starting from 0 and a start
    value of 2. *)
Lemma doDelaiedDiscountingTask_distractor_count_witness :
  match doDelaiedDiscountingTask (prepareSettings smallUser) smallSequence with
  | Some (settings', data, console) =>
      length (distractorResults data)
      = (S (variables.count (Settings.variables settings')) - 2 - (1 - 2))%nat
  | None => False
  end.
Proof.
  destruct (doDelaiedDiscountingTask (prepareSettings smallUser) smallSequence)
    as [[[settings' data] console]|] eqn:Hrun; [|vm_compute in Hrun; discriminate].
  exact (doDelaiedDiscountingTask_distractor_count _ _ _ _ _ Hrun).
Defined.

(** ** The payoff trial *)

Lemma sampleOne_elem_of {A} (arr : list A) pick x :
  sampleOne arr pick = Some x → x ∈ arr.
Proof. unfold sampleOne. apply list_elem_of_lookup_2. Qed.

Lemma sampleOne_is_Some {A} (arr : list A) pick :
  arr ≠ [] → is_Some (sampleOne arr pick).
Proof.
  intros Hne. unfold sampleOne. apply lookup_lt_is_Some.
  apply Nat.mod_upper_bound. by destruct arr.
Qed.

(** X8. The payoff trial shows again a choice that was offered in a
    titration trial: the reward and the stimulus that
    [handleOnPayoffStart] stores are those recorded for one of the
    results named ['delaied_discounting'], never those of a distractor
    trial, and nothing else of the settings changes.  When no titration
    trial has been recorded there is nothing to select and the callback
    fails. *)
Theorem handleOnPayoffStart_selects
    (settings : Settings.t) (results : list Data.t) (pick : nat) :
  (∀ settings',
     handleOnPayoffStart settings results pick = Some settings' →
     ∃ result,
       result ∈ results
       ∧ Data.name result = "delaied_discounting"
       ∧ Data.reword result = Some (variables.reword (Settings.variables settings'))
       ∧ Data.choices result
         = Some (variables.stimulus (Settings.variables settings'))
       ∧ Settings.parameters settings' = Settings.parameters settings
       ∧ variables.count (Settings.variables settings')
         = variables.count (Settings.variables settings)
       ∧ variables.number_of_ips (Settings.variables settings')
         = variables.number_of_ips (Settings.variables settings))
  ∧ (titrationResults results = [] →
     handleOnPayoffStart settings results pick = None).
Proof.
  unfold handleOnPayoffStart. split.
  - intros settings' Hrun.
    destruct (sampleOne _ pick) as [result|] eqn:Hresult; simpl in Hrun; [|done].
    destruct (Data.reword result) as [reword|] eqn:Hreword; simpl in Hrun; [|done].
    destruct (Data.choices result) as [choices|] eqn:Hchoices; simpl in Hrun; [|done].
    injection Hrun as <-.
    apply sampleOne_elem_of, list_elem_of_filter in Hresult as [Hname Hin].
    by exists result.
  - unfold titrationResults. by intros ->.
Qed.

(** With two results, a titration trial and a distractor trial, the
    payoff takes the 550 yen of the titration trial whatever the random
    choice; with the distractor trial alone it fails. *)
Lemma handleOnPayoffStart_selects_witness :
  match handleOnPayoffStart (prepareSettings smallUser)
          [Data.mk "delaied_discounting" "t1" (Some 0) (Some 550) (Some (Some "x")) None;
           Data.mk "distractor" "d0" (Some 1) (Some 250) (Some (Some "y")) None] 7
  with
  | Some settings' => variables.reword (Settings.variables settings') = 550
  | None => False
  end
  ∧ handleOnPayoffStart (prepareSettings smallUser)
      [Data.mk "distractor" "d0" (Some 1) (Some 250) (Some (Some "y")) None] 7
    = None.
Proof.
  split.
  - destruct (handleOnPayoffStart _ _ _) as [settings'|] eqn:Hrun;
      [|vm_compute in Hrun; discriminate].
    apply handleOnPayoffStart_selects in Hrun
      as (result & Hin & Hname & Hreword & _).
    apply elem_of_cons in Hin as [-> | Hin].
    + by injection Hreword.
    + apply list_elem_of_singleton in Hin as ->. discriminate.
  - apply (handleOnPayoffStart_selects (prepareSettings smallUser)
             [Data.mk "distractor" "d0" (Some 1) (Some 250) (Some (Some "y")) None] 7).
    reflexivity.
Defined.

(** ** Bounds and rewards over a session *)

Lemma updateParameters_sound response reword p standard step threshold :
  (step | standard) → (step | reword) → bmax p ≤ reword ≤ tmax p →
  soundCondition standard step p →
  soundCondition standard step
    (updateParameters response reword p standard threshold).1.
Proof.
  intros Dstd Dr Hr (Hord & Hb0 & Hts & Dtmin & Dtmax & Dbmin & Dbmax & Hip).
  destruct Hord as (O1 & O2 & O3).
  assert (0 ≤ reword ≤ standard ∧ (step | reword)) as Hreword by (split; [lia | done]).
  unfold soundCondition, ordered, updateParameters, store_ip.
  repeat case_decide; cbn;
    (split_and!;
     [lia | lia | lia | lia | lia
     | assumption || apply Z.divide_0_r | assumption || apply Z.divide_0_r
     | assumption || apply Z.divide_0_r | assumption || apply Z.divide_0_r
     | first [ by intros v [= <-] | exact Hip ] ]).
Qed.

Lemma soundCondition_set_count standard step n p :
  soundCondition standard step (set_count n p) ↔ soundCondition standard step p.
Proof. done. Qed.

Lemma soundCondition_reward standard step p u :
  0 < step → unitDraw u → soundCondition standard step p →
  (step | getRewardValue p step u)
  ∧ bmax p ≤ getRewardValue p step u ≤ tmax p.
Proof.
  intros Hstep Hu (Hord & Hb0 & Hts & _ & [hi Hhi] & _ & [lo Hlo] & _).
  destruct Hord as (O1 & O2 & O3).
  destruct (getRewardValue_steps p step lo hi u) as (k & -> & Hk);
    try done; [nia|].
  split; [by exists k|]. rewrite Hlo, Hhi. nia.
Qed.

Lemma dummy_reward standard step u :
  0 < step → 0 ≤ standard → (step | standard) → unitDraw u →
  (step | getRewardValue (mkDummyRange standard 0) step u)
  ∧ 0 ≤ getRewardValue (mkDummyRange standard 0) step u ≤ standard.
Proof.
  intros Hstep Hstd [hi Hhi] Hu.
  destruct (getRewardValue_steps (mkDummyRange standard 0) step 0 hi u)
    as (k & -> & Hk); try done; [nia|].
  split; [by exists k | nia].
Qed.

(** What a session keeps true of its settings and of the rewards it
    records, entry by entry. *)
Lemma timelineEntry_sound standard step settings trialName inp settings' data console :
  0 < step → 0 ≤ standard → (step | standard) →
  unitDraw (u_reward inp) → unitDraw (u_dummy inp) →
  Settings.standard settings = standard ∧ Settings.step settings = step
  ∧ (∀ key p, Settings.parameters settings !! key = Some (Condition p) →
       soundCondition standard step p) →
  timelineEntry settings trialName inp = Some (settings', data, console) →
  (Settings.standard settings' = standard ∧ Settings.step settings' = step
   ∧ (∀ key p, Settings.parameters settings' !! key = Some (Condition p) →
        soundCondition standard step p))
  ∧ Forall (λ d, ∃ v, Data.reword d = Some v ∧ 0 ≤ v ≤ standard ∧ (step | v)) data.
Proof.
  intros Hstep Hstd Dstd Hu Hu' (Estd & Estep & Hsound) Hrun.
  apply timelineEntry_cases in Hrun
    as [(e' & _ & _ & -> & -> & _)
       | (e & s1 & t & He & Hip & Htrial & Hrest)]; [by split|].
  apply delaiedDiscountingTrial_effect in Htrial as (p & Hp & Htrial).
  cbv zeta in Htrial.
  destruct Htrial
    as (Hs1 & _ & _ & _ & _ & _ & _ & _ & Hreword & _ & _ & Hconst).
  injection Hconst as Estd1 Estep1 _ _ _.
  rewrite Estd, Estep in *.
  pose proof (Hsound _ _ Hp) as Hsp.
  destruct (soundCondition_reward standard step p (u_reward inp) Hstep Hu Hsp)
    as [Dr Hr].
  assert (∀ key q, Settings.parameters s1 !! key = Some (Condition q) →
            soundCondition standard step q) as Hsound1.
  { intros key q. rewrite Hs1. destruct (decide (trialName = key)) as [-> | Hne].
    - rewrite lookup_insert_eq. intros [= <-].
      by apply updateParameters_sound.
    - rewrite lookup_insert_ne by done. apply Hsound. }
  assert (∃ v, Data.reword t = Some v ∧ 0 ≤ v ≤ standard ∧ (step | v)) as Ht.
  { eexists. split; [done|]. destruct Hsp as ((? & ? & ?) & ? & ? & _).
    split; [lia | done]. }
  destruct Hrest as [(_ & -> & ->) | (_ & d & Hdistractor & ->)].
  - split; [done|]. by repeat constructor.
  - apply distractorTrial_effect in Hdistractor as (d0 & stimulus & Hd0 & -> & ->).
    rewrite Estd1, Estep1.
    destruct (dummy_reward standard step (u_dummy inp)) as [Dd Hd]; try done.
    split.
    + split_and!; [done | done |].
      intros key q. cbn -[getRewardValue].
      destruct (decide ("d0" = key)) as [<- | Hne].
      * rewrite lookup_insert_eq. destruct d0 as [q0 | d0]; [|done].
        intros [= <-]. rewrite soundCondition_set_count. by eapply Hsound1.
      * rewrite lookup_insert_ne by done. apply Hsound1.
    + repeat constructor; [done|]. eexists. by split; [done|].
Qed.

Lemma prepareSettings_sound (user : User.t) key p :
  0 ≤ User.standard user → (User.step user | User.standard user) →
  Settings.parameters (prepareSettings user) !! key = Some (Condition p) →
  soundCondition (User.standard user) (User.step user) p.
Proof.
  intros Hstd Dstd Hp. apply prepareSettings_lookup in Hp as [Hin _].
  pose proof (prepareSettings_initialBracket user _ p Hin eq_refl) as [Hb Hip].
  injection Hb as Htmin Htmax Hbmin Hbmax.
  unfold soundCondition, ordered. rewrite Htmin, Htmax, Hbmin, Hbmax, Hip.
  split_and!; try lia; try done; apply Z.divide_0_r.
Qed.

(** X9. Over the task of a session, for a positive step that divides the
    standard amount, draws in the unit interval and any responses: at the
    end every condition has its four bounds ordered
    ([bmax <= bmin <= tmin <= tmax]), all multiples of the step between 0
    and the standard amount, and so is every indifference point that was
    determined; and every reward recorded, for a titration or a
    distractor trial, is a multiple of the step between 0 and the
    standard amount. *)
Theorem doDelaiedDiscountingTask_sound
    (user : User.t) (trialSequence : list (string * Inputs))
    (settings' : Settings.t) (data : list Data.t) (console : list string) :
  0 < User.step user → (User.step user | User.standard user) →
  0 ≤ User.standard user →
  unitInputs trialSequence →
  doDelaiedDiscountingTask (prepareSettings user) trialSequence
  = Some (settings', data, console) →
  (∀ key p, Settings.parameters settings' !! key = Some (Condition p) →
     soundCondition (User.standard user) (User.step user) p)
  ∧ Forall (λ d, ∃ v, Data.reword d = Some v
                      ∧ 0 ≤ v ≤ User.standard user ∧ (User.step user | v)) data.
Proof.
  intros Hstep Dstd Hstd Hinputs Hrun.
  set (standard := User.standard user) in *. set (step := User.step user) in *.
  assert (Settings.standard (prepareSettings user) = standard
          ∧ Settings.step (prepareSettings user) = step
          ∧ (∀ key p, Settings.parameters (prepareSettings user) !! key
                      = Some (Condition p) →
               soundCondition standard step p)) as Hinit.
  { split_and!; [done | done |]. intros key p. by apply prepareSettings_sound. }
  revert Hinit Hrun. generalize (prepareSettings user) as settings.
  induction Hinputs as [| [trialName inp] rest [Hu Hu'] _ IH]
    in data, console |- *; intros settings Hinit Hrun.
  - injection Hrun as <- <- _. split; [apply Hinit | constructor].
  - cbn [doDelaiedDiscountingTask] in Hrun.
    destruct (timelineEntry settings trialName inp) as [[[s1 data1] console1]|]
      eqn:Hfirst; simpl in Hrun; [|done].
    destruct (doDelaiedDiscountingTask s1 rest) as [[[s2 data2] console2]|]
      eqn:Hrest; simpl in Hrun; [|done].
    injection Hrun as <- <- _.
    destruct (timelineEntry_sound standard step _ _ _ _ _ _
                Hstep Hstd Dstd Hu Hu' Hinit Hfirst) as [Hinit1 Hdata1].
    destruct (IH _ _ _ Hinit1 Hrest) as [Hfinal Hdata2].
    split; [done|]. by apply Forall_app.
Qed.

(** The small session: every reward recorded is a multiple of 50
    between 0 and 1000. *)
Lemma doDelaiedDiscountingTask_sound_witness :
  match doDelaiedDiscountingTask (prepareSettings smallUser) smallSequence with
  | Some (settings', data, console) =>
      Forall (λ d, ∃ v, Data.reword d = Some v ∧ 0 ≤ v ≤ 1000 ∧ (50 | v)) data
  | None => False
  end.
Proof.
  destruct (doDelaiedDiscountingTask (prepareSettings smallUser) smallSequence)
    as [[[settings' data] console]|] eqn:Hrun; [|vm_compute in Hrun; discriminate].
  apply (doDelaiedDiscountingTask_sound smallUser smallSequence settings' data console).
  - reflexivity.
  - exists 20; reflexivity.
  - discriminate.
  - apply exampleInputs_unit.
  - exact Hrun.
Defined.

(** ** Settings without a condition of the opposite type *)

Lemma elem_of_Object_values (m : gmap string TrialParameters) e :
  e ∈ Object_values m ↔ ∃ key, m !! key = Some e.
Proof.
  unfold Object_values. rewrite list_elem_of_fmap. split.
  - intros ([k v] & -> & Hkv). apply elem_of_map_to_list in Hkv. by exists k.
  - intros [key Hkey]. exists (key, e). by rewrite elem_of_map_to_list.
Qed.

Lemma updateParameters_name_type response reword p standard threshold :
  name (updateParameters response reword p standard threshold).1 = name p
  ∧ type (updateParameters response reword p standard threshold).1 = type p.
Proof. unfold updateParameters, store_ip. by repeat case_decide. Qed.

Lemma handleOnDelaiedDiscountingFinish_is_Some settings data p :
  Settings.parameters settings !! Data.tiral_name data = Some (Condition p) →
  is_Some (handleOnDelaiedDiscountingFinish settings data).
Proof.
  intros Hp. unfold handleOnDelaiedDiscountingFinish. rewrite Hp.
  destruct (updateParameters _ _ _ _ _). by eexists.
Qed.

Lemma delaiedDiscountingTrial_is_Some settings trialName inp p :
  Settings.parameters settings !! trialName = Some (Condition p) →
  is_Some (delaiedDiscountingTrial settings trialName inp).
Proof.
  intros Hp. unfold delaiedDiscountingTrial.
  destruct (handleOnDelaiedDiscountingStart_is_Some settings trialName
              (u_reward inp) p Hp) as [s1 Hs1].
  rewrite Hs1. simpl.
  apply handleOnDelaiedDiscountingStart_effect in Hs1 as (p' & stimulus & _ & ->).
  eapply handleOnDelaiedDiscountingFinish_is_Some. cbn.
  by rewrite lookup_insert_eq.
Qed.

(** X10. Settings that hold no object of the type opposite to that of a
    condition cannot show a distractor after it: once the trial count has
    reached the start value of the distractor, the entry of such a
    condition fails on the condition that [handleOnDistractorStart]
    selects from an empty list. *)
Theorem timelineEntry_no_opposite_type
    (settings : Settings.t) (trialName : string) (inp : Inputs) (p : Parameters) :
  Settings.parameters settings !! trialName = Some (Condition p) →
  ip p = None →
  (∀ key e, Settings.parameters settings !! key = Some e →
     tp_type e ≠ distractorTrialType (type p)) →
  (Settings.distractorStart settings
   ≤ S (variables.count (Settings.variables settings)))%nat →
  timelineEntry settings trialName inp = None.
Proof.
  intros Hp Hip Htypes Hstart.
  unfold timelineEntry, skipIfIpDetermined_conditional. rewrite Hp. cbn [tp_ip].
  simpl. rewrite bool_decide_eq_true_2 by done.
  destruct (delaiedDiscountingTrial settings trialName inp)
    as [[[s1 t] console]|] eqn:Htrial; simpl; [|done].
  apply delaiedDiscountingTrial_effect in Htrial as (p' & Hp' & Htrial).
  cbv zeta in Htrial.
  destruct Htrial as (Hs1 & _ & _ & Hcount & _ & _ & _ & _ & _ & _ & _ & Hconst).
  injection Hconst as _ _ _ Estart _.
  assert (p' = p) as -> by congruence.
  unfold distractorTrial_conditional.
  rewrite bool_decide_eq_true_2 by lia.
  unfold distractorTrial, handleOnDistractorStart.
  rewrite Hs1, lookup_insert_eq. simpl.
  destruct (sampleOne _ (pick_distractor inp)) as [chosen|] eqn:Hchosen;
    simpl; [|done].
  apply sampleOne_elem_of, list_elem_of_filter in Hchosen as [Htype Hin].
  apply elem_of_Object_values in Hin as [key Hkey].
  rewrite (proj2 (updateParameters_name_type _ _ _ _ _)) in Htype.
  cbn [type set_count] in Htype.
  destruct (decide (trialName = key)) as [-> | Hne].
  - rewrite lookup_insert_eq in Hkey. injection Hkey as <-.
    cbn [tp_type] in Htype.
    rewrite (proj2 (updateParameters_name_type _ _ _ _ _)) in Htype.
    destruct (Htypes _ _ Hp). exact Htype.
  - rewrite lookup_insert_ne in Hkey by done.
    destruct (Htypes _ _ Hkey). exact Htype.
Qed.

(** Settings prepared from an empty list of probabilities hold no object
    of type [probability_delay]. *)
Lemma prepareSettings_no_probability (user : User.t) key e :
  User.probabilities user = [] →
  Settings.parameters (prepareSettings user) !! key = Some e →
  tp_type e ≠ "probability_delay".
Proof.
  intros Hnone He. apply prepareSettings_lookup in He as [Hin _].
  unfold trialParameters in Hin. rewrite Hnone in Hin. cbn [imap app] in Hin.
  rewrite elem_of_app in Hin. destruct Hin as [Hin | Hin].
  - by apply elem_of_lookup_imap_1 in Hin as (idx & val & -> & _).
  - by apply list_elem_of_singleton in Hin as ->.
Qed.

(** Settings with two delays, no probability and distractors from the
    first trial on: the first entry fails. *)
Lemma timelineEntry_no_opposite_type_witness :
  timelineEntry
    (prepareSettings
       (User.mk 500 1 1000 50 [0; 2] [] 2
          (mkStimuli stimuli_temporalDelay stimuli_probabilityDelay)))
    "t1" exampleInputs = None.
Proof.
  apply (timelineEntry_no_opposite_type _ "t1" exampleInputs
           (temporalParameters 1000 0 0)).
  - reflexivity.
  - reflexivity.
  - intros key e He. by apply prepareSettings_no_probability in He.
  - vm_compute. lia.
Defined.

(** ** A session on well-formed settings runs to its end *)

Lemma tp_shape_count_incr e : tp_shape (tp_count_incr e) = tp_shape e.
Proof. by destruct e. Qed.

Lemma tp_shape_update response reword p n standard threshold :
  tp_shape (Condition (updateParameters response reword (set_count n p)
                         standard threshold).1)
  = tp_shape (Condition p).
Proof.
  unfold tp_shape. cbn [tp_name tp_type].
  by destruct (updateParameters_name_type response reword (set_count n p)
                 standard threshold) as [-> ->].
Qed.

Lemma wellFormed_insert (m : gmap string TrialParameters) key e e' :
  m !! key = Some e → tp_shape e' = tp_shape e →
  wellFormed m → wellFormed (<[key := e']> m).
Proof.
  intros He Hshape (Hnames & Htypes & Hd0 & Htemporal & Hprobability).
  assert (∀ T, (∃ k p, m !! k = Some (Condition p) ∧ type p = T) →
               ∃ k p, <[key := e']> m !! k = Some (Condition p) ∧ type p = T)
    as Hexists.
  { intros T (k & p & Hk & Hp). destruct (decide (key = k)) as [-> | Hne].
    - assert (e = Condition p) as -> by congruence.
      destruct e' as [p' | d']; [|done]. injection Hshape as _ Htype.
      exists k, p'. rewrite lookup_insert_eq. split; [done | congruence].
    - exists k, p. by rewrite lookup_insert_ne. }
  split_and!; [| | | by apply Hexists..].
  - intros k x. rewrite lookup_insert_Some. intros [[<- <-] | [_ Hx]].
    + injection Hshape as -> _ _. by eapply Hnames.
    + by eapply Hnames.
  - intros k p. rewrite lookup_insert_Some. intros [[<- ->] | [_ Hp]].
    + destruct e as [p0 | d0]; [|done]. injection Hshape as _ ->.
      by eapply Htypes.
    + by eapply Htypes.
  - rewrite lookup_insert_is_Some. destruct (decide (key = "d0")); auto.
Qed.

Lemma condition_insert (m : gmap string TrialParameters) key e e' k :
  m !! key = Some e → tp_shape e' = tp_shape e →
  (∃ p, m !! k = Some (Condition p)) →
  ∃ p, <[key := e']> m !! k = Some (Condition p).
Proof.
  intros He Hshape [p Hp]. destruct (decide (key = k)) as [-> | Hne].
  - assert (e = Condition p) as -> by congruence.
    destruct e' as [p' | d']; [|done]. exists p'. by rewrite lookup_insert_eq.
  - exists p. by rewrite lookup_insert_ne.
Qed.

Lemma handleOnDistractorStart_is_Some settings lastTrialName pick u p :
  wellFormed (Settings.parameters settings) →
  Settings.parameters settings !! lastTrialName = Some (Condition p) →
  is_Some (handleOnDistractorStart settings lastTrialName pick u).
Proof.
  intros (Hnames & Htypes & [d0 Hd0] & Htemporal & Hprobability) Hp.
  unfold handleOnDistractorStart. rewrite Hp. simpl.
  assert (∃ key q, Settings.parameters settings !! key = Some (Condition q)
                   ∧ type q = distractorTrialType (type p))
    as (key & q & Hq & Htype).
  { unfold distractorTrialType.
    destruct (Htypes _ _ Hp) as [-> | ->]; by repeat case_decide. }
  match goal with
  | |- context [ sampleOne ?arr pick ] =>
      destruct (sampleOne_is_Some arr pick) as [chosen Hchosen]
  end.
  { intros Hnil.
    assert (Condition q ∈ filter
              (λ parameters, tp_type parameters = distractorTrialType (type p))
              (Object_values (Settings.parameters settings))) as Hin.
    { apply list_elem_of_filter. split; [done|].
      apply elem_of_Object_values. by exists key. }
    rewrite Hnil in Hin. by apply elem_of_nil in Hin. }
  rewrite Hchosen. simpl. rewrite Hd0. simpl.
  apply sampleOne_elem_of, list_elem_of_filter in Hchosen as [_ Hin].
  apply elem_of_Object_values in Hin as [k Hk].
  match goal with
  | |- context [ getStimulousString ?s ?n ] =>
      destruct (getStimulousString_is_Some s n) as [stimulus ->]
  end; [|by eexists].
  cbn. rewrite lookup_insert_is_Some'. right.
  rewrite (Hnames _ _ Hk). by eexists.
Qed.

(** An entry on the name of a condition of well-formed settings returns,
    and leaves the settings well formed, with the same conditions. *)
Lemma timelineEntry_wellFormed settings trialName inp p :
  wellFormed (Settings.parameters settings) →
  Settings.parameters settings !! trialName = Some (Condition p) →
  ∃ settings' data console,
    timelineEntry settings trialName inp = Some (settings', data, console)
    ∧ wellFormed (Settings.parameters settings')
    ∧ (∀ k, (∃ q, Settings.parameters settings !! k = Some (Condition q)) →
            ∃ q, Settings.parameters settings' !! k = Some (Condition q))
    ∧ (tp_ip (Condition p) = None →
       ∃ t rest, data = t :: rest ∧ Data.name t = "delaied_discounting")
    ∧ Forall (λ d, Data.name d = "delaied_discounting" →
                   is_Some (Data.reword d) ∧ is_Some (Data.choices d)) data.
Proof.
  intros Hwf Hp. unfold timelineEntry, skipIfIpDetermined_conditional.
  rewrite Hp. simpl.
  destruct (bool_decide (ip p = None)) eqn:Hip.
  2: { apply bool_decide_eq_false in Hip. eexists _, _, _.
       split_and!; [done | done | done | done | constructor]. }
  destruct (delaiedDiscountingTrial_is_Some settings trialName inp p Hp)
    as [[[s1 t] console] Htrial].
  rewrite Htrial. simpl.
  apply delaiedDiscountingTrial_effect in Htrial as (p' & Hp' & Htrial).
  cbv zeta in Htrial.
  destruct Htrial as (Hs1 & _ & _ & _ & _ & Hname & _ & _ & Hreword & Hchoices & _).
  assert (p' = p) as -> by congruence.
  assert (wellFormed (Settings.parameters s1)) as Hwf1.
  { rewrite Hs1. eapply wellFormed_insert; [done | apply tp_shape_update | done]. }
  assert (∀ k, (∃ q, Settings.parameters settings !! k = Some (Condition q)) →
               ∃ q, Settings.parameters s1 !! k = Some (Condition q)) as Hcond1.
  { intros k Hk. rewrite Hs1.
    eapply condition_insert; [done | apply tp_shape_update | done]. }
  assert (Data.name t = "delaied_discounting" →
          is_Some (Data.reword t) ∧ is_Some (Data.choices t)) as Ht
    by (by rewrite Hreword, Hchoices).
  destruct (distractorTrial_conditional s1).
  - destruct (Hcond1 trialName) as [q Hq]; [by eexists|].
    unfold distractorTrial.
    destruct (handleOnDistractorStart_is_Some s1 trialName (pick_distractor inp)
                (u_dummy inp) q Hwf1 Hq) as [s2 Hs2].
    rewrite Hs2. simpl.
    apply handleOnDistractorStart_effect in Hs2
      as (? & ? & d0 & stimulus & _ & _ & _ & Hd0 & _ & ->).
    eexists _, _, _. split; [done|]. cbn -[getRewardValue].
    split_and!.
    + eapply wellFormed_insert; [done | apply tp_shape_count_incr | done].
    + intros k Hk. eapply condition_insert;
        [done | apply tp_shape_count_incr | by apply Hcond1].
    + intros _. by eexists _, _.
    + apply Forall_cons. split; [done|].
      apply Forall_cons. split; [intros ?; discriminate | constructor].
  - eexists _, _, _. split; [done|]. split_and!; try done.
    + intros _. by eexists _, _.
    + apply Forall_cons. split; [done | constructor].
Qed.

Lemma doDelaiedDiscountingTask_wellFormed settings trialSequence :
  wellFormed (Settings.parameters settings) →
  Forall (λ entry, ∃ p, Settings.parameters settings !! entry.1
                        = Some (Condition p)) trialSequence →
  ∃ settings' data console,
    doDelaiedDiscountingTask settings trialSequence = Some (settings', data, console)
    ∧ Forall (λ d, Data.name d = "delaied_discounting" →
                   is_Some (Data.reword d) ∧ is_Some (Data.choices d)) data
    ∧ (∀ trialName inp rest p,
         trialSequence = (trialName, inp) :: rest →
         Settings.parameters settings !! trialName = Some (Condition p) →
         ip p = None →
         ∃ t data', data = t :: data' ∧ Data.name t = "delaied_discounting").
Proof.
  induction trialSequence as [| [trialName inp] rest IH] in settings |- *;
    intros Hwf Hseq.
  - eexists _, _, _. split_and!; [done | constructor | done].
  - apply Forall_cons in Hseq as [[p Hp] Hrest]. cbn [fst] in Hp.
    destruct (timelineEntry_wellFormed settings trialName inp p Hwf Hp)
      as (s1 & data1 & console1 & Hfirst & Hwf1 & Hcond1 & Hfirstdata & Hdata1).
    destruct (IH s1 Hwf1) as (s2 & data2 & console2 & Hrun & Hdata2 & _).
    { eapply Forall_impl; [exact Hrest|]. intros entry. apply Hcond1. }
    cbn [doDelaiedDiscountingTask]. rewrite Hfirst. simpl. rewrite Hrun. simpl.
    eexists _, _, _. split_and!; [done | by apply Forall_app |].
    intros ? ? ? q [= <- <- <-] Hq Hip.
    assert (q = p) as -> by congruence.
    destruct (Hfirstdata Hip) as (t & rest' & -> & Ht).
    by exists t, (rest' ++ data2).
Qed.

Lemma prepareSettings_wellFormed (user : User.t) :
  User.temporalDelays user ≠ [] → User.probabilities user ≠ [] →
  wellFormed (Settings.parameters (prepareSettings user)).
Proof.
  intros Hdelays Hprobabilities.
  destruct (prepareSettings_entries user) as (Ht & Hp & Hd0 & Hall).
  split_and!.
  - intros key e He. by apply Hall in He as [? _].
  - intros key p Hkey.
    apply Hall in Hkey as [_ [(idx & val & _ & [= ->])
                             | [(idx & val & _ & [= ->]) | ?]]];
      [by left | by right | done].
  - by rewrite Hd0.
  - destruct (User.temporalDelays user) as [| val delays] eqn:E; [done|].
    eexists _, _. split; [by apply (Ht 0%nat val)|]. done.
  - destruct (User.probabilities user) as [| val probabilities] eqn:E; [done|].
    eexists _, _. split; [by apply (Hp 0%nat val)|]. done.
Qed.

(** The names of a trial sequence are names of conditions. *)
Lemma prepareTrialSequence_conditions (user : User.t) (out : list string) :
  prepareTrialSequence (prepareSettings user) out →
  Forall (λ trialName,
            ∃ p, Settings.parameters (prepareSettings user) !! trialName
                 = Some (Condition p)) out.
Proof.
  intros (repeatedArray & Hrepeat & Hshuffle & _).
  unfold randomization_repeat in Hrepeat.
  apply Forall_forall. intros trialName Hin.
  rewrite Hshuffle, Hrepeat in Hin.
  apply list_elem_of_bind in Hin as (key & Hin & Hkey).
  apply elem_of_replicate in Hin as [-> _].
  apply list_elem_of_filter in Hkey as [Hne Hkey].
  apply elem_of_Object_keys in Hkey as [e He].
  destruct (prepareSettings_entries user) as (_ & _ & _ & Hall).
  destruct (Hall _ _ He) as [Hname [(idx & val & _ & ->)
                                   | [(idx & val & _ & ->) | ->]]];
    [by eexists | by eexists | done].
Qed.

Lemma prepareTrialSequence_entries_conditions (user : User.t)
    (trialSequence : list (string * Inputs)) :
  prepareTrialSequence (prepareSettings user) trialSequence.*1 →
  Forall (λ entry, ∃ p, Settings.parameters (prepareSettings user) !! entry.1
                        = Some (Condition p)) trialSequence.
Proof.
  intros Hsequence. apply prepareTrialSequence_conditions in Hsequence.
  rewrite Forall_forall in Hsequence. apply Forall_forall. intros entry Hin.
  apply Hsequence, list_elem_of_fmap. by exists entry.
Qed.

(** X11. With at least one delay and one probability configured, the task
    of a session runs to its end without a failure, on every trial
    sequence that [prepareTrialSequence] can return, for all draws and
    all responses (valid or not): no trial name is missing from the
    parameters map, and every distractor finds a condition of the
    opposite type to show. *)
Theorem doDelaiedDiscountingTask_runs
    (user : User.t) (trialSequence : list (string * Inputs)) :
  User.temporalDelays user ≠ [] → User.probabilities user ≠ [] →
  prepareTrialSequence (prepareSettings user) trialSequence.*1 →
  is_Some (doDelaiedDiscountingTask (prepareSettings user) trialSequence).
Proof.
  intros Hdelays Hprobabilities Hsequence.
  destruct (doDelaiedDiscountingTask_wellFormed (prepareSettings user) trialSequence)
    as (settings' & data & console & Hrun & _).
  - by apply prepareSettings_wellFormed.
  - by apply prepareTrialSequence_entries_conditions.
  - by rewrite Hrun.
Qed.

(** X12. Under the same conditions the payoff trial that follows the
    task has a result to select whenever the trial sequence is not empty:
    the first entry always runs a titration trial, and every titration
    trial records its reward and its stimulus.  After an empty trial
    sequence (no repetition configured) there is no result and
    [handleOnPayoffStart] fails. *)
Theorem handleOnPayoffStart_after_task
    (user : User.t) (trialSequence : list (string * Inputs)) (pick : nat) :
  User.temporalDelays user ≠ [] → User.probabilities user ≠ [] →
  prepareTrialSequence (prepareSettings user) trialSequence.*1 →
  ∃ settings' data console,
    doDelaiedDiscountingTask (prepareSettings user) trialSequence
    = Some (settings', data, console)
    ∧ (trialSequence ≠ [] → is_Some (handleOnPayoffStart settings' data pick))
    ∧ (trialSequence = [] → handleOnPayoffStart settings' data pick = None).
Proof.
  intros Hdelays Hprobabilities Hsequence.
  destruct (doDelaiedDiscountingTask_wellFormed (prepareSettings user) trialSequence)
    as (settings' & data & console & Hrun & Hdata & Hfirst).
  { by apply prepareSettings_wellFormed. }
  { by apply prepareTrialSequence_entries_conditions. }
  exists settings', data, console. split; [done|]. split.
  2: { intros ->. by injection Hrun as _ <- _. }
  intros Hne.
  destruct trialSequence as [| [trialName inp] rest]; [done|].
  apply prepareTrialSequence_conditions, Forall_cons in Hsequence as [[p Hp] _].
  cbn [fst] in Hp.
  destruct (Hfirst trialName inp rest p eq_refl Hp) as (t & data' & -> & Ht).
  { destruct (ip p) eqn:Hip; [|done].
    assert (determined (Settings.parameters (prepareSettings user)) !! trialName
            = Some (Condition p)) as Hdet.
    { apply map_lookup_filter_Some. split; [done|]. cbn. by rewrite Hip. }
    by rewrite prepareSettings_determined in Hdet. }
  unfold handleOnPayoffStart.
  match goal with
  | |- context [ sampleOne ?arr pick ] =>
      destruct (sampleOne_is_Some arr pick) as [result Hresult]
  end.
  { by rewrite filter_cons, decide_True. }
  rewrite Hresult. simpl.
  apply sampleOne_elem_of, list_elem_of_filter in Hresult as [Hname Hin].
  rewrite Forall_forall in Hdata.
  destruct (Hdata result Hin Hname) as [[reword ->] [choices ->]].
  simpl. by eexists.
Qed.

(** The small session runs to its end. *)
Lemma doDelaiedDiscountingTask_runs_witness :
  is_Some (doDelaiedDiscountingTask (prepareSettings smallUser) smallSequence).
Proof.
  apply (doDelaiedDiscountingTask_runs smallUser smallSequence).
  - discriminate.
  - discriminate.
  - apply smallSequence_prepared.
Defined.

(** After the small session the payoff trial has a result to select. *)
Lemma handleOnPayoffStart_after_task_witness :
  ∃ settings' data console,
    doDelaiedDiscountingTask (prepareSettings smallUser) smallSequence
    = Some (settings', data, console)
    ∧ is_Some (handleOnPayoffStart settings' data 5).
Proof.
  destruct (handleOnPayoffStart_after_task smallUser smallSequence 5)
    as (settings' & data & console & Hrun & Hsome & _);
    [discriminate | discriminate | apply smallSequence_prepared |].
  exists settings', data, console. split; [exact Hrun|].
  apply Hsome. discriminate.
Defined.

(** ** A trial with an invalid response *)

(** X13. A titration trial whose response is neither button 0 nor button
    1 is still a trial: the reward is drawn and recorded, the counter of
    the condition and the trial count go up by one and the diagnostic is
    written, while the bounds and the indifference point of the condition
    stay as they were. *)
Theorem delaiedDiscountingTrial_invalid_response
    (settings : Settings.t) (trialName : string) (inp : Inputs) (p : Parameters) :
  Settings.parameters settings !! trialName = Some (Condition p) →
  answer inp ≠ Some 0 → answer inp ≠ Some 1 →
  ∃ settings' data,
    delaiedDiscountingTrial settings trialName inp
    = Some (settings', data,
            [invalid_response_message (JS.String (answer inp))])
    ∧ Settings.parameters settings'
      = <[trialName := Condition (set_count (S (count p)) p)]>
          (Settings.parameters settings)
    ∧ variables.count (Settings.variables settings')
      = S (variables.count (Settings.variables settings))
    ∧ variables.number_of_ips (Settings.variables settings')
      = (variables.number_of_ips (Settings.variables settings)
         + if decide (ip p ≠ None) then 1 else 0)%nat
    ∧ Data.reword data
      = Some (getRewardValue p (Settings.step settings) (u_reward inp))
    ∧ Data.trial_parameters data = Some (Condition (set_count (S (count p)) p)).
Proof.
  intros Hp H0 H1.
  destruct (delaiedDiscountingTrial_is_Some settings trialName inp p Hp)
    as [[[s1 data] console] Htrial].
  exists s1, data. pose proof Htrial as Heffect.
  apply delaiedDiscountingTrial_effect in Heffect as (p' & Hp' & Heffect).
  assert (p' = p) as -> by congruence. cbv zeta in Heffect.
  destruct (responseLabel_invalid _ H0 H1) as [Hlabel Hinvalid].
  rewrite Hlabel, updateParameters_default in Heffect by done.
  cbn [fst snd] in Heffect.
  destruct Heffect as (Hs1 & -> & _ & Hcount & Hips & _ & _ & _ & Hreword & _ & Hsnapshot & _).
  by split_and!.
Qed.

(** A trial of [t1] that ends without a button pressed: the diagnostic
    names [null], and [t1] is as before but for its counter. *)
Lemma delaiedDiscountingTrial_invalid_response_witness :
  ∃ settings' data,
    delaiedDiscountingTrial (prepareSettings smallUser) "t1"
      (mkInputs (11 # 20) None 3 (1 # 4) (Some 1))
    = Some (settings', data, [invalid_response_message "null"])
    ∧ Settings.parameters settings' !! "t1"
      = Some (Condition (set_count 1 (temporalParameters 1000 0 0))).
Proof.
  destruct (delaiedDiscountingTrial_invalid_response (prepareSettings smallUser)
              "t1" (mkInputs (11 # 20) None 3 (1 # 4) (Some 1))
              (temporalParameters 1000 0 0))
    as (settings' & data & Hrun & Hparams & _); [reflexivity | discriminate..|].
  exists settings', data. split; [exact Hrun|].
  by rewrite Hparams, lookup_insert_eq.
Defined.

(** ** At most [maximumTrialCount] trials for a condition *)

Lemma prepareTrialSequence_entriesOf (settings : Settings.t) (out : list string)
    trialName :
  prepareTrialSequence settings out →
  (entriesOf trialName out ≤ Settings.maximumTrialCount settings)%nat.
Proof.
  intros (repeatedArray & Hrepeat & Hshuffle & _).
  unfold randomization_repeat in Hrepeat.
  rewrite (entriesOf_Permutation _ _ _ Hshuffle),
    (entriesOf_Permutation _ _ _ Hrepeat), entriesOf_repeated.
  rewrite entriesOf_NoDup by apply NoDup_filter, NoDup_fst_map_to_list.
  case_decide; lia.
Qed.

(** The titration trials recorded for a condition are at most the
    entries of the trial sequence that refer to it. *)
Lemma doDelaiedDiscountingTask_results_le settings trialSequence settings' data
    console key :
  doDelaiedDiscountingTask settings trialSequence = Some (settings', data, console) →
  (length (filter (λ d, Data.tiral_name d = key) (titrationResults data))
   ≤ entriesOf key trialSequence.*1)%nat.
Proof.
  induction trialSequence as [| [trialName inp] rest IH]
    in settings, data, console |- *; intros Hrun.
  - by injection Hrun as _ <- _.
  - cbn [doDelaiedDiscountingTask] in Hrun.
    destruct (timelineEntry settings trialName inp) as [[[s1 data1] console1]|]
      eqn:Hfirst; simpl in Hrun; [|done].
    destruct (doDelaiedDiscountingTask s1 rest) as [[[s2 data2] console2]|]
      eqn:Hrest; simpl in Hrun; [|done].
    injection Hrun as <- <- _. apply IH in Hrest.
    unfold titrationResults, entriesOf in *.
    rewrite fmap_cons, !filter_app, length_app, (filter_cons _ trialName).
    cbn [fst].
    assert (length (filter (λ d, Data.tiral_name d = key)
                      (filter (λ d, Data.name d = "delaied_discounting") data1))
            ≤ if decide (trialName = key) then 1 else 0)%nat as Hone.
    { apply timelineEntry_cases in Hfirst
        as [(e' & _ & _ & _ & -> & _)
           | (e & s1' & t & _ & _ & Htrial & Hcases)]; [cbn; lia|].
      apply delaiedDiscountingTrial_effect in Htrial as (p & _ & Htrial).
      cbv zeta in Htrial.
      destruct Htrial as (_ & _ & _ & _ & _ & Hname & Htiral & _).
      fold (titrationResults data1).
      destruct Hcases as [(_ & _ & ->) | (_ & d & Hdistractor & ->)].
      - rewrite (proj1 (results_one t Hname)), filter_cons, Htiral.
        case_decide; cbn; lia.
      - apply distractorTrial_effect in Hdistractor as (? & ? & _ & _ & Hd).
        rewrite (proj1 (results_two t d Hname ltac:(by rewrite Hd))).
        rewrite filter_cons, Htiral. case_decide; cbn; lia. }
    case_decide; cbn [length] in *; lia.
Qed.

(** The name, the type and the kind of the object under a key never
    change over the task. *)
Lemma timelineEntry_shape settings trialName inp settings' data console key :
  timelineEntry settings trialName inp = Some (settings', data, console) →
  tp_shape <$> Settings.parameters settings' !! key
  = tp_shape <$> Settings.parameters settings !! key.
Proof.
  intros Hrun.
  apply timelineEntry_cases in Hrun
    as [(e' & _ & _ & -> & _)
       | (e & s1 & t & _ & _ & Htrial & Hcases)]; [done|].
  apply delaiedDiscountingTrial_effect in Htrial as (p & Hp & Htrial).
  cbv zeta in Htrial. destruct Htrial as (Hs1 & _).
  assert (tp_shape <$> Settings.parameters s1 !! key
          = tp_shape <$> Settings.parameters settings !! key) as Hshape1.
  { rewrite Hs1. destruct (decide (trialName = key)) as [-> | Hne].
    - rewrite lookup_insert_eq, Hp. cbn [fmap option_fmap option_map].
      by rewrite tp_shape_update.
    - by rewrite lookup_insert_ne. }
  destruct Hcases as [(_ & -> & _) | (_ & d & Hdistractor & _)]; [done|].
  apply distractorTrial_effect in Hdistractor as (d0 & stimulus & Hd0 & -> & _).
  rewrite <- Hshape1. cbn -[getRewardValue].
  destruct (decide ("d0" = key)) as [<- | Hne].
  - rewrite lookup_insert_eq, Hd0. cbn [fmap option_fmap option_map].
    by rewrite tp_shape_count_incr.
  - by rewrite lookup_insert_ne.
Qed.

(** X14. No condition is run more than [maximumTrialCount] times: at the
    end of the task of a session, on any trial sequence that
    [prepareTrialSequence] can return, the counter of every condition is
    at most [maximumTrialCount], whatever the draws and the responses. *)
Theorem doDelaiedDiscountingTask_maximumTrialCount
    (user : User.t) (trialSequence : list (string * Inputs))
    (settings' : Settings.t) (data : list Data.t) (console : list string)
    (key : string) (p : Parameters) :
  prepareTrialSequence (prepareSettings user) trialSequence.*1 →
  doDelaiedDiscountingTask (prepareSettings user) trialSequence
  = Some (settings', data, console) →
  Settings.parameters settings' !! key = Some (Condition p) →
  (count p ≤ User.maximumTrialCount user)%nat.
Proof.
  intros Hsequence Hrun Hp.
  pose proof (prepareTrialSequence_entriesOf _ _ key Hsequence) as Hentries.
  pose proof (doDelaiedDiscountingTask_results_le _ _ _ _ _ key Hrun) as Hresults.
  cbn [prepareSettings Settings.maximumTrialCount] in Hentries.
  assert (tp_shape <$> Settings.parameters settings' !! key
          = tp_shape <$> Settings.parameters (prepareSettings user) !! key)
    as Hshape.
  { by apply (doDelaiedDiscountingTask_invariant
                (λ s, tp_shape <$> Settings.parameters s !! key
                      = tp_shape <$> Settings.parameters (prepareSettings user) !! key)
                _ _ _ _ _
                (λ s n i s' d c HI Hentry,
                   eq_trans (timelineEntry_shape s n i s' d c key Hentry) HI))
       in Hrun. }
  rewrite Hp in Hshape.
  destruct (Settings.parameters (prepareSettings user) !! key) as [e|] eqn:He;
    [|done].
  injection Hshape as Hname Htype Hkind.
  destruct (prepareSettings_entries user) as (_ & _ & _ & Hall).
  destruct (Hall _ _ He) as [Hkey Hcases].
  assert (key ≠ "d0") as Hne.
  { intros ->. destruct Hcases as [(idx & val & _ & ->)
                                  | [(idx & val & _ & ->) | ->]]; done. }
  destruct e as [p0 | d0]; [|done].
  destruct (proj1 (proj2 (doDelaiedDiscountingTask_counters_aux _ _ _ _ _ Hrun))
              _ _ Hne He) as (p' & Hp' & Hcount).
  assert (p' = p) as -> by congruence.
  assert (count p0 = 0%nat) as Hzero.
  { destruct Hcases as [(idx & val & _ & [= ->])
                       | [(idx & val & _ & [= ->]) | ?]]; done. }
  lia.
Qed.

(** The small session repeats each condition twice: [t1] ends with a
    counter of at most 2. *)
Lemma doDelaiedDiscountingTask_maximumTrialCount_witness :
  match doDelaiedDiscountingTask (prepareSettings smallUser) smallSequence with
  | Some (settings', data, console) =>
      ∃ p, Settings.parameters settings' !! "t1" = Some (Condition p)
           ∧ (count p ≤ 2)%nat
  | None => False
  end.
Proof.
  destruct (doDelaiedDiscountingTask (prepareSettings smallUser) smallSequence)
    as [[[settings' data] console]|] eqn:Hrun; [|vm_compute in Hrun; discriminate].
  destruct (proj1 (proj2 (doDelaiedDiscountingTask_counters_aux _ _ _ _ _ Hrun))
              "t1" (temporalParameters 1000 0 0)) as (p & Hp & _);
    [discriminate | reflexivity |].
  exists p. split; [exact Hp|].
  exact (doDelaiedDiscountingTask_maximumTrialCount smallUser smallSequence
           settings' data console "t1" p smallSequence_prepared Hrun Hp).
Defined.
